(** * SMCPy: the particle container and the initializer

    A shallow embedding of [smcpy/smc/particles.py] and
    [smcpy/smc/initializer.py].

    Conventions of the embedding.
    - A numpy float array is a list of real numbers: [float64] is idealised
      as [R], so [np.exp], [np.log] and [np.sqrt] are [exp], [ln] and [sqrt]
      of the Standard Library.  Rounding, overflow, [nan] and [inf] are
      outside the model.
    - A column array of shape (N, 1) and a flat array of shape (N,) are both
      a [list R] of length N; an array of shape (N, P) is the list of its N
      rows.
    - A Python [dict] is an association list in insertion order.
    - A raised exception is the left injection of [result]. *)

From Stdlib Require Import String.
From Stdlib Require Import Reals List ZArith Bool Arith Lia Lra Psatz.
Import ListNotations.

Open Scope R_scope.

(** ** Python values and exceptions *)

Module Py.

Inductive pyerror : Type :=
| TypeError
| ValueError
| ZeroDivisionError.

Definition result (A : Type) : Type := (pyerror + A)%type.

Definition ret {A : Type} (a : A) : result A := inr a.
Definition raise {A : Type} (e : pyerror) : result A := inl e.

Definition bind {A B : Type} (m : result A) (k : A -> result B) : result B :=
  match m with
  | inl e => inl e
  | inr a => k a
  end.

(** The values that reach [Particles.__init__] as [params]. *)
Inductive pyobj : Type :=
| PyNone
| PyFloat (x : R)
| PyList (xs : list R)
| PyDict (items : list (string * list R)).

(** The builtin [sum]: a left fold that starts from 0. *)
Definition py_sum (l : list R) : R := fold_left Rplus l 0.

(** The builtin [max]: the first item is the running maximum, a later item
    replaces it when it is strictly greater; an empty argument raises
    [ValueError]. *)
Definition py_max (l : list R) : result R :=
  match l with
  | [] => raise ValueError
  | x :: xs => ret (fold_left (fun m y => if Rlt_dec m y then y else m) xs x)
  end.

End Py.

Export Py.

Declare Scope py_scope.
Delimit Scope py_scope with py.
Notation "x <- m ;; k" := (bind m (fun x => k))
  (at level 61, m at next level, right associativity) : py_scope.
Open Scope py_scope.

(** ** Building a dict *)

Module PyDictOps.

(** [d[k] = v] on a dict kept in insertion order: a key already present
    keeps its place and takes the new value, a new key goes last. *)
Fixpoint setitem {A : Type} (d : list (string * A)) (k : string) (v : A)
  : list (string * A) :=
  match d with
  | [] => [(k, v)]
  | (k', v') :: d' =>
      if String.eqb k' k then (k', v) :: d'
      else (k', v') :: setitem d' k v
  end.

(** [dict(pairs)] and the comprehension [{k: v for k, v in pairs}]. *)
Definition of_pairs {A : Type} (pairs : list (string * A))
  : list (string * A) :=
  fold_left (fun d kv => setitem d (fst kv) (snd kv)) pairs [].

(** [d[k]], with [None] for [KeyError]. *)
Fixpoint getitem {A : Type} (d : list (string * A)) (k : string)
  : option A :=
  match d with
  | [] => None
  | (k', v) :: d' => if String.eqb k' k then Some v else getitem d' k
  end.

End PyDictOps.

(** ** The numpy operations the two files use *)

Module Np.

Definition vec : Type := list R.
Definition mat : Type := list (list R).

(** [np.sum] over every entry of a flat or column array. *)
Definition sum (v : vec) : R := fold_right Rplus 0 v.

Definition shape0 (m : mat) : nat := length m.

Definition shape1 (m : mat) : nat :=
  match m with
  | [] => 0%nat
  | r :: _ => length r
  end.

(** Entry [(i, k)]. *)
Definition get (m : mat) (i k : nat) : R := nth k (nth i m []) 0.

(** Column [k] as a flat array: [m[:, k]]. *)
Definition column (k : nat) (m : mat) : vec := map (fun r => nth k r 0) m.

(** [m.T]: row [k] of the transpose is column [k] of [m]. *)
Definition transpose (m : mat) : mat :=
  map (fun k => column k m) (seq 0 (shape1 m)).

(** [np.vstack] of a list of flat arrays: they become the rows; an empty
    list, or arrays of different lengths, raise [ValueError]. *)
Definition vstack (arrs : list vec) : result mat :=
  match arrs with
  | [] => raise ValueError
  | a :: rest =>
      if forallb (fun b => Nat.eqb (length b) (length a)) rest
      then ret arrs
      else raise ValueError
  end.

(** Pointwise combination of two arrays of the same shape. *)
Fixpoint map2 {A B C : Type} (f : A -> B -> C) (l : list A) (l' : list B)
  : list C :=
  match l, l' with
  | a :: t, b :: t' => f a b :: map2 f t t'
  | _, _ => []
  end.

(** [m * c] for [m] of shape (N, P) and [c] of shape (N, 1): row [i] is
    scaled by [c[i]]. *)
Definition mul_mat_col (m : mat) (c : vec) : mat :=
  map2 (fun r ci => map (fun x => x * ci) r) m c.

(** [c * m] for [c] of shape (N, 1) and [m] of shape (N, P). *)
Definition mul_col_mat (c : vec) (m : mat) : mat :=
  map2 (fun ci r => map (fun x => ci * x) r) c m.

(** [m - v] for [m] of shape (N, P) and [v] of shape (P,): [v] is taken
    from every row. *)
Definition sub_mat_row (m : mat) (v : vec) : mat :=
  map (fun r => map2 Rminus r v) m.

(** [m ** 2]. *)
Definition square (m : mat) : mat := map (map (fun x => x * x)) m.

(** [np.sum(m, axis=0)] for [m] of shape (N, P): entry [k] adds up column
    [k]. *)
Definition sum_axis0 (m : mat) : vec :=
  map (fun k => sum (column k m)) (seq 0 (shape1 m)).

(** Inner product of two flat arrays. *)
Definition inner (u v : vec) : R := sum (map2 Rmult u v).

(** [np.dot(a, b)] of two 2-D arrays: entry [(j, k)] is the inner product
    of row [j] of [a] and column [k] of [b]. *)
Definition dot (a b : mat) : mat :=
  map (fun ra => map (fun k => inner ra (column k b)) (seq 0 (shape1 b))) a.

(** [m * s] for a scalar [s]. *)
Definition scale (m : mat) (s : R) : mat := map (map (fun x => x * s)) m.

(** [np.eye(n)]. *)
Definition eye (n : nat) : mat :=
  map (fun j => map (fun k => if Nat.eqb j k then 1 else 0) (seq 0 n))
      (seq 0 n).

(** [np.diag(m)] of a 2-D array: its diagonal as a flat array. *)
Definition diag (m : mat) : vec :=
  map (fun j => get m j j) (seq 0 (Nat.min (shape0 m) (shape1 m))).

(** [m * v] for [m] of shape (P, P) and [v] of shape (P,): entry [(j, k)]
    is [m[j, k] * v[k]]. *)
Definition mul_mat_row (m : mat) (v : vec) : mat :=
  map (fun r => map2 Rmult r v) m.

End Np.

(** ** particles.py *)

Module Particles.

(** Modelled from the spec: [Checks._is_dict] of [smcpy/utils/checks.py],
    which is not among the sources; the container "fails with a type error
    if params is not a name->array mapping". *)
Definition _is_dict (params : pyobj) : bool :=
  match params with
  | PyDict _ => true
  | _ => false
  end.

Record t : Type := mk {
  param_names : list string;
  params : Np.mat;
  num_particles : nat;
  log_likes : Np.vec;
  log_weights : Np.vec;
  weights : Np.vec
}.

(** [_set_params]: the names, the (N, P) array and N. *)
Definition _set_params (params : pyobj)
  : result (list string * Np.mat * nat) :=
  if negb (_is_dict params) then raise TypeError
  else
    match params with
    | PyDict items =>
        stacked <- Np.vstack (List.map snd items) ;;
        let arr := Np.transpose stacked in
        ret (List.map fst items, arr, Np.shape0 arr)
    | _ => raise TypeError
    end.

(** [_set_log_likes]. *)
Definition _set_log_likes (num : nat) (log_likes : Np.vec)
  : result Np.vec :=
  if negb (Nat.eqb (length log_likes) num) then raise ValueError
  else ret log_likes.

(** [_normalize_log_weights]. *)
Definition _normalize_log_weights (log_weights : Np.vec) : result Np.vec :=
  m <- py_max log_weights ;;
  let shifted_weights := List.map (fun w => exp (w - m)) log_weights in
  let total := py_sum shifted_weights in
  let normalized_weights := List.map (fun s => s / total) shifted_weights in
  ret (List.map ln normalized_weights).

(** [_set_and_norm_log_weights]: the normalized log-weights and the
    weights. *)
Definition _set_and_norm_log_weights (num : nat) (log_weights : Np.vec)
  : result (Np.vec * Np.vec) :=
  if negb (Nat.eqb (length log_weights) num) then raise ValueError
  else
    normed <- _normalize_log_weights log_weights ;;
    ret (normed, List.map exp normed).

(** [Particles.__init__]. *)
Definition init (params : pyobj) (log_likes log_weights : Np.vec)
  : result t :=
  p <- _set_params params ;;
  let '(names, arr, num) := p in
  ll <- _set_log_likes num log_likes ;;
  lw <- _set_and_norm_log_weights num log_weights ;;
  ret (mk names arr num ll (fst lw) (snd lw)).

(** [compute_ess]. *)
Definition compute_ess (p : t) : R :=
  1 / Np.sum (List.map (fun w => w * w) (weights p)).

(** [compute_mean(package=False)]. *)
Definition compute_mean (p : t) : Np.vec :=
  Np.sum_axis0 (Np.mul_mat_col (params p) (weights p)).

(** [compute_variance(package=False)]. *)
Definition compute_variance (p : t) : Np.vec :=
  let means := compute_mean p in
  let norm := 1 - Np.sum (List.map (fun w => w * w) (weights p)) in
  List.map (fun s => s / norm)
    (Np.sum_axis0
       (Np.mul_col_mat (weights p)
          (Np.square (Np.sub_mat_row (params p) means)))).

(** [compute_std_dev(package=False)]. *)
Definition compute_std_dev (p : t) : Np.vec :=
  let var := compute_variance p in
  List.map sqrt var.

(** [package_for_user]: the outputs zipped with the parameter names. *)
Definition package_for_user (p : t) (outputs : Np.vec)
  : list (string * R) :=
  combine (param_names p) outputs.

(** The unrepaired estimate of [compute_covariance]: the value of [cov]
    before the test. *)
Definition weighted_covariance (p : t) : Np.mat :=
  let means := compute_mean p in
  let diff := Np.sub_mat_row (params p) means in
  let norm := 1 / (1 - Np.sum (List.map (fun w => w * w) (weights p))) in
  Np.scale (Np.dot (Np.transpose diff) (Np.mul_mat_col diff (weights p)))
    norm.

Definition covariance_warning : string :=
  "Covariance matrix is not positive definite; setting off-diagonal terms to zero.".

Section Covariance.

(** [Checks._is_positive_definite] of [smcpy/utils/checks.py] is not among
    the sources: the test is a parameter. *)
Variable _is_positive_definite : Np.mat -> bool.

(** [compute_covariance]: the warnings issued and the returned array. *)
Definition compute_covariance (p : t) : list string * Np.mat :=
  let cov := weighted_covariance p in
  if negb (_is_positive_definite cov)
  then ([covariance_warning],
        Np.mul_mat_row (Np.eye (Np.shape0 cov)) (Np.diag cov))
  else ([], cov).

End Covariance.

(** The [param_dict] property: [dict(zip(self._param_names,
    self._params.T))]. *)
Definition param_dict (p : t) : list (string * Np.vec) :=
  PyDictOps.of_pairs (combine (param_names p) (Np.transpose (params p))).

(** What a method under [@package_for_user] returns. *)
Inductive user_output : Type :=
| Unpackaged (outputs : Np.vec)
| Packaged (d : list (string * R)).

(** The wrapper of [package_for_user] around a method [func] that takes
    [self] alone, called with no argument or with the keyword [package].
    With [package=False] it calls [func(self)]; otherwise it calls
    [func(self, **kwargs)], which raises [TypeError] when [kwargs] holds
    [package], and packages the outputs by parameter name. *)
Definition package_for_user_wrapper (func : t -> Np.vec) (self : t)
    (package : option bool) : result user_output :=
  match package with
  | Some false => ret (Unpackaged (func self))
  | Some true => raise TypeError
  | None =>
      let outputs := func self in
      let names := param_names self in
      ret (Packaged (PyDictOps.of_pairs (combine names outputs)))
  end.

End Particles.

(** ** initializer.py *)

Module Initializer.

(** A call made on the kernel. *)
Inductive call : Type :=
| SampleFromPrior (num_particles : Z)
| GetLogLikelihoods (samples : pyobj)
| GetLogPriors (samples : pyobj).

(** An instance of [MCMCKernel] ([smcpy/mcmc/kernel_base.py], not among the
    sources).  The prior sampler is random and a kernel may keep state, so
    each answer may depend on the calls made before.  The two evaluators
    answer with a column array, one entry per sample. *)
Record MCMCKernel : Type := {
  sample_from_prior : list call -> Z -> pyobj;
  get_log_likelihoods : list call -> pyobj -> Np.vec;
  get_log_priors : list call -> pyobj -> Np.vec
}.

(** What a caller may pass as [mcmc_kernel]. *)
Inductive pyarg : Type :=
| Plain (o : pyobj)
| Kernel (k : MCMCKernel).

Definition isinstance_MCMCKernel (a : pyarg) : bool :=
  match a with
  | Kernel _ => true
  | Plain _ => false
  end.

(** Computations that call the kernel: the calls made so far are threaded
    through, and a raised exception keeps the calls made before it. *)
Definition M (A : Type) : Type := list call -> list call * result A.

Definition mret {A : Type} (a : A) : M A := fun log => (log, ret a).

Definition mbind {A B : Type} (m : M A) (k : A -> M B) : M B :=
  fun log =>
    match m log with
    | (log', inl e) => (log', inl e)
    | (log', inr a) => k a log'
    end.

Definition lift {A : Type} (r : result A) : M A := fun log => (log, r).

Definition do_sample_from_prior (k : MCMCKernel) (n : Z) : M pyobj :=
  fun log => (log ++ [SampleFromPrior n], ret (sample_from_prior k log n)).

Definition do_get_log_likelihoods (k : MCMCKernel) (s : pyobj) : M Np.vec :=
  fun log =>
    (log ++ [GetLogLikelihoods s], ret (get_log_likelihoods k log s)).

Definition do_get_log_priors (k : MCMCKernel) (s : pyobj) : M Np.vec :=
  fun log => (log ++ [GetLogPriors s], ret (get_log_priors k log s)).

Record t : Type := mk { mcmc_kernel : MCMCKernel }.

(** [Initializer.__init__], through the [mcmc_kernel] setter. *)
Definition init (mcmc_kernel : pyarg) : M t :=
  if negb (isinstance_MCMCKernel mcmc_kernel) then lift (raise TypeError)
  else
    match mcmc_kernel with
    | Kernel k => mret (mk k)
    | Plain _ => lift (raise TypeError)
    end.

(** [1/num_particles] on Python integers. *)
Definition py_one_over (n : Z) : result R :=
  if Z.eqb n 0 then raise ZeroDivisionError else ret (1 / IZR n).

(** [[x] * n]: no item when [n] is negative. *)
Definition py_list_repeat (x : R) (n : Z) : list R := repeat x (Z.to_nat n).

(** The raw log-weights of [init_particles_from_prior]. *)
Definition prior_log_weights (num_particles : Z) : result Np.vec :=
  q <- py_one_over num_particles ;;
  ret (py_list_repeat (ln q) num_particles).

(** [init_particles_from_prior]. *)
Definition init_particles_from_prior (self : t) (num_particles : Z)
  : M Particles.t :=
  mbind (do_sample_from_prior (mcmc_kernel self) num_particles)
    (fun params =>
  mbind (do_get_log_likelihoods (mcmc_kernel self) params)
    (fun log_likes =>
  mbind (lift (prior_log_weights num_particles))
    (fun log_weights =>
  lift (Particles.init params log_likes log_weights)))).

(** [a - b] for two column arrays, with numpy's broadcasting: equal
    lengths go entry by entry, a column of length 1 is stretched, anything
    else raises [ValueError]. *)
Definition sub_col_col (a b : Np.vec) : result Np.vec :=
  if Nat.eqb (length a) (length b) then ret (Np.map2 Rminus a b)
  else
    match a, b with
    | [x], _ => ret (List.map (fun y => x - y) b)
    | _, [y] => ret (List.map (fun x => x - y) a)
    | _, _ => raise ValueError
    end.

(** The raw log-weights of [init_particles_from_samples]. *)
Definition sample_log_weights (log_priors proposal_pdensities : Np.vec)
  : result Np.vec :=
  sub_col_col log_priors (List.map ln proposal_pdensities).

(** [init_particles_from_samples]. *)
Definition init_particles_from_samples (self : t) (samples : pyobj)
    (proposal_pdensities : Np.vec) : M Particles.t :=
  mbind (do_get_log_likelihoods (mcmc_kernel self) samples)
    (fun log_likes =>
  mbind (do_get_log_priors (mcmc_kernel self) samples)
    (fun log_priors =>
  mbind (lift (sample_log_weights log_priors proposal_pdensities))
    (fun log_weights =>
  lift (Particles.init samples log_likes log_weights)))).

(** Modelled from the spec: [get_num_particles_in_partition], which the
    tests call but [initializer.py] does not define.  "Each rank gets
    floor(total/size) particles, and the first total mod size ranks (by
    rank index, ascending) each get one extra particle."  [size] is the
    communicator's size. *)
Definition get_num_particles_in_partition (size total rank : Z) : Z :=
  (total / size + (if rank <? total mod size then 1 else 0))%Z.

(** The counts of the ranks [0 .. size-1], in order. *)
Definition partition_counts (size total : Z) : list Z :=
  List.map (fun r => get_num_particles_in_partition size total (Z.of_nat r))
    (seq 0 (Z.to_nat size)).

End Initializer.

(** * Definitions used by the statements *)

(** The normalized log-weights, in the closed form of the documentation. *)
Definition log_weights_closed_form (w : list R) (m : R) : list R :=
  let z := Np.sum (map (fun x => exp (x - m)) w) in
  map (fun x => x - m - ln z) w.

(** The sum of the squares of the weights. *)
Definition sum_sq (w : list R) : R := Np.sum (map (fun x => x * x) w).

(** The invariant of a constructed population that the estimators rest
    on. *)
Record well_formed (p : Particles.t) : Prop := {
  wf_num_pos : (0 < Particles.num_particles p)%nat;
  wf_rows : length (Particles.params p) = Particles.num_particles p;
  wf_cols : forall r, In r (Particles.params p) ->
                      length r = length (Particles.param_names p);
  wf_names : (0 < length (Particles.param_names p))%nat;
  wf_log_likes : length (Particles.log_likes p) = Particles.num_particles p;
  wf_weights_len : length (Particles.weights p) = Particles.num_particles p;
  wf_weights_exp : Particles.weights p = map exp (Particles.log_weights p);
  wf_weights_pos : forall x, In x (Particles.weights p) -> 0 < x;
  wf_weights_sum : Np.sum (Particles.weights p) = 1
}.

(** A rectangular array: [n] rows of [c] entries. *)
Definition has_shape (m : Np.mat) (n c : nat) : Prop :=
  length m = n /\ forall r, In r m -> length r = c.

(** The array returned when the test fails. *)
Definition repaired (C : Np.mat) : Np.mat :=
  Np.mul_mat_row (Np.eye (Np.shape0 C)) (Np.diag C).

(** The sum of a list of counts. *)
Definition zsum (l : list Z) : Z := fold_right Z.add 0%Z l.

(** A population of two particles and one parameter, used to instantiate
    the statements below. *)
Definition two_params : pyobj := PyDict [("a"%string, [1; 2])].

(** A kernel that always draws [two_params] and answers with the given
    columns. *)
Definition constant_kernel (lls lps : Np.vec) : Initializer.MCMCKernel :=
  {| Initializer.sample_from_prior := fun _ _ => two_params;
     Initializer.get_log_likelihoods := fun _ _ => lls;
     Initializer.get_log_priors := fun _ _ => lps |}.

(** * Properties *)

(** ** Builtins and sums *)

Lemma fold_left_Rplus_sum (l : list R) (a : R) :
  fold_left Rplus l a = a + Np.sum l.
Proof.
  revert a; induction l as [|x l IH]; intros a; simpl.
  - lra.
  - rewrite IH. lra.
Qed.

Lemma py_sum_np_sum (l : list R) : py_sum l = Np.sum l.
Proof. unfold py_sum. rewrite fold_left_Rplus_sum. lra. Qed.

Lemma running_max_ge_start (xs : list R) (x : R) :
  x <= fold_left (fun m y => if Rlt_dec m y then y else m) xs x.
Proof.
  revert x; induction xs as [|y xs IH]; intros x; simpl.
  - lra.
  - destruct (Rlt_dec x y) as [Hlt|Hge].
    + specialize (IH y). lra.
    + apply IH.
Qed.

Lemma running_max_upper (xs : list R) (x y : R) :
  In y xs -> y <= fold_left (fun m z => if Rlt_dec m z then z else m) xs x.
Proof.
  revert x; induction xs as [|z xs IH]; intros x Hin; simpl in *.
  - contradiction.
  - destruct Hin as [->|Hin].
    + destruct (Rlt_dec x y) as [Hlt|Hge].
      * apply running_max_ge_start.
      * pose proof (running_max_ge_start xs x). lra.
    + apply IH; assumption.
Qed.

Lemma running_max_in (xs : list R) (x : R) :
  In (fold_left (fun m z => if Rlt_dec m z then z else m) xs x) (x :: xs).
Proof.
  revert x; induction xs as [|z xs IH]; intros x; simpl.
  - left; reflexivity.
  - destruct (Rlt_dec x z).
    + right. apply IH.
    + destruct (IH x) as [H|H]; [left | right; right]; assumption.
Qed.

Lemma py_max_some (l : list R) :
  l <> [] -> exists m, py_max l = inr m.
Proof.
  destruct l as [|x xs]; [congruence|]. intros _. eexists. reflexivity.
Qed.

Lemma py_max_spec (l : list R) (m : R) :
  py_max l = inr m -> In m l /\ (forall y, In y l -> y <= m).
Proof.
  destruct l as [|x xs]; simpl; [discriminate|].
  unfold ret. intros H. injection H as <-. split.
  - apply running_max_in.
  - intros y [<-|Hin].
    + apply running_max_ge_start.
    + apply running_max_upper; assumption.
Qed.

Lemma py_max_unique (l : list R) (m m' : R) :
  In m l -> (forall y, In y l -> y <= m) ->
  In m' l -> (forall y, In y l -> y <= m') -> m = m'.
Proof.
  intros Hin Hub Hin' Hub'.
  apply Rle_antisym; [apply Hub' | apply Hub]; assumption.
Qed.

Lemma py_max_shift (l : list R) (c m : R) :
  py_max l = inr m -> py_max (map (fun w => w + c) l) = inr (m + c).
Proof.
  intros H.
  destruct (py_max_some (map (fun w => w + c) l)) as [m' Hm'].
  { destruct l; simpl; [discriminate H | discriminate]. }
  rewrite Hm'. f_equal.
  apply py_max_spec in H as [Hin Hub].
  apply py_max_spec in Hm' as [Hin' Hub'].
  apply in_map_iff in Hin' as [w [<- Hw]].
  assert (m + c <= w + c).
  { apply Hub'. apply in_map_iff. exists m. split; [reflexivity|assumption]. }
  specialize (Hub w Hw). lra.
Qed.

Lemma sum_exp_pos (f : R -> R) (l : list R) :
  l <> [] -> 0 < Np.sum (map (fun w => exp (f w)) l).
Proof.
  induction l as [|x l IH]; [congruence|]. intros _. simpl.
  pose proof (exp_pos (f x)).
  destruct l as [|y l].
  - simpl. lra.
  - assert (0 < Np.sum (map (fun w => exp (f w)) (y :: l))) by (apply IH; discriminate).
    lra.
Qed.

Lemma sum_map_div (l : list R) (z : R) :
  Np.sum (map (fun s => s / z) l) = Np.sum l / z.
Proof.
  induction l as [|x l IH]; simpl.
  - unfold Rdiv. lra.
  - rewrite IH. unfold Rdiv. lra.
Qed.

(** ** Normalization *)

Lemma normalize_closed_form (w : list R) (m : R) :
  py_max w = inr m ->
  Particles._normalize_log_weights w = inr (log_weights_closed_form w m).
Proof.
  intros Hm. unfold Particles._normalize_log_weights. rewrite Hm. simpl.
  unfold ret. f_equal. rewrite py_sum_np_sum.
  unfold log_weights_closed_form. rewrite !map_map.
  assert (Hne : w <> []) by (destruct w; [discriminate Hm | discriminate]).
  pose proof (sum_exp_pos (fun x => x - m) w Hne) as Hz.
  apply map_ext. intros x.
  unfold Rdiv. rewrite ln_mult; [| apply exp_pos | apply Rinv_0_lt_compat; assumption].
  rewrite ln_exp, ln_Rinv by assumption. lra.
Qed.

Lemma exp_closed_form (w : list R) (m : R) :
  w <> [] ->
  map exp (log_weights_closed_form w m) =
  map (fun x => exp (x - m) / Np.sum (map (fun y => exp (y - m)) w)) w.
Proof.
  intros Hne. unfold log_weights_closed_form. rewrite map_map.
  pose proof (sum_exp_pos (fun x => x - m) w Hne) as Hz.
  apply map_ext. intros x.
  unfold Rminus at 1. rewrite exp_plus, exp_Ropp, exp_ln by assumption.
  reflexivity.
Qed.

Lemma sum_exp_closed_form (w : list R) (m : R) :
  w <> [] -> Np.sum (map exp (log_weights_closed_form w m)) = 1.
Proof.
  intros Hne. rewrite exp_closed_form by assumption.
  pose proof (sum_exp_pos (fun x => x - m) w Hne) as Hz.
  rewrite <- (map_map (fun x => exp (x - m)) (fun s => s / _)).
  rewrite sum_map_div. field. lra.
Qed.

(** ** Construction of the container *)

Lemma vstack_inv (arrs : list Np.vec) (m : Np.mat) :
  Np.vstack arrs = inr m ->
  m = arrs /\ arrs <> [] /\
  (forall a, In a arrs -> length a = Np.shape1 arrs).
Proof.
  destruct arrs as [|a rest]; simpl; [discriminate|].
  destruct (forallb (fun b => Nat.eqb (length b) (length a)) rest) eqn:Hall;
    [|discriminate].
  unfold ret. intros H. injection H as <-.
  split; [reflexivity|]. split; [discriminate|].
  intros b [<-|Hin]; [reflexivity|].
  rewrite forallb_forall in Hall. apply Nat.eqb_eq. apply Hall. assumption.
Qed.

(** What a successful construction says about its arguments and its
    result. *)
Lemma init_inv (params : pyobj) (ll lw : Np.vec) (p : Particles.t) :
  Particles.init params ll lw = inr p ->
  exists items m,
    params = PyDict items /\
    map snd items <> [] /\
    (forall a, In a (map snd items) -> length a = Np.shape1 (map snd items)) /\
    length ll = Np.shape1 (map snd items) /\
    length lw = Np.shape1 (map snd items) /\
    py_max lw = inr m /\
    p = Particles.mk (map fst items) (Np.transpose (map snd items))
          (Np.shape1 (map snd items)) ll
          (log_weights_closed_form lw m)
          (map exp (log_weights_closed_form lw m)).
Proof.
  unfold Particles.init, Particles._set_params.
  destruct params as [| x | xs | items]; simpl; try discriminate.
  destruct (Np.vstack (map snd items)) as [e|stacked] eqn:Hv; simpl;
    [discriminate|].
  apply vstack_inv in Hv as [-> [Hne Hlen]].
  unfold Particles._set_log_likes, Particles._set_and_norm_log_weights.
  assert (Hs0 : Np.shape0 (Np.transpose (map snd items))
                = Np.shape1 (map snd items)).
  { unfold Np.shape0, Np.transpose. rewrite length_map, length_seq.
    reflexivity. }
  rewrite Hs0.
  destruct (Nat.eqb (length ll) _) eqn:Hll; simpl; [|discriminate].
  destruct (Nat.eqb (length lw) _) eqn:Hlw; simpl; [|discriminate].
  destruct (py_max lw) as [e|m] eqn:Hm.
  { unfold Particles._normalize_log_weights. rewrite Hm. simpl. discriminate. }
  rewrite (normalize_closed_form lw m Hm). simpl. unfold ret.
  intros H. injection H as <-.
  exists items, m. apply Nat.eqb_eq in Hll, Hlw.
  repeat split; try assumption.
Qed.

(** The converse: arguments of matching, non-zero length are accepted. *)
Lemma init_accepts (items : list (string * list R)) (ll lw : Np.vec) :
  map snd items <> [] ->
  (forall a, In a (map snd items) -> length a = Np.shape1 (map snd items)) ->
  length ll = Np.shape1 (map snd items) ->
  length lw = Np.shape1 (map snd items) ->
  lw <> [] ->
  exists p, Particles.init (PyDict items) ll lw = inr p.
Proof.
  intros Hne Hlen Hll Hlw Hlwne.
  unfold Particles.init, Particles._set_params. simpl.
  assert (Hv : Np.vstack (map snd items) = inr (map snd items)).
  { unfold Np.vstack. destruct (map snd items) as [|a rest] eqn:E;
      [congruence|].
    replace (forallb (fun b => Nat.eqb (length b) (length a)) rest)
      with true; [reflexivity|].
    symmetry. apply forallb_forall. intros b Hb. apply Nat.eqb_eq.
    apply (Hlen b). right; assumption. }
  rewrite Hv. simpl.
  unfold Particles._set_log_likes, Particles._set_and_norm_log_weights.
  assert (Hs0 : Np.shape0 (Np.transpose (map snd items))
                = Np.shape1 (map snd items)).
  { unfold Np.shape0, Np.transpose. rewrite length_map, length_seq.
    reflexivity. }
  rewrite Hs0, Hll, Hlw, Nat.eqb_refl. simpl.
  destruct (py_max_some lw Hlwne) as [m Hm].
  rewrite (normalize_closed_form lw m Hm). simpl. eexists. reflexivity.
Qed.


Lemma two_params_accepted (ll lw : Np.vec) :
  length ll = 2%nat -> length lw = 2%nat ->
  exists p, Particles.init two_params ll lw = inr p.
Proof.
  intros Hll Hlw. apply init_accepts; simpl; try assumption.
  - discriminate.
  - intros a [<-|[]]. reflexivity.
  - destruct lw; [discriminate Hlw | discriminate].
Qed.


(** C10.  Adding a constant to every raw log-weight changes nothing in
    the constructed population (nor in the error raised, when one is). *)
Theorem normalization_shift_invariant
    (params : pyobj) (ll w : Np.vec) (c : R) :
  Particles.init params ll (map (fun x => x + c) w) =
  Particles.init params ll w.
Proof.
  assert (Hn : Particles._normalize_log_weights (map (fun x => x + c) w)
               = Particles._normalize_log_weights w).
  { destruct (py_max w) as [e|m] eqn:Hm.
    - destruct w; [reflexivity | discriminate Hm].
    - rewrite (normalize_closed_form w m Hm).
      rewrite (normalize_closed_form _ (m + c) (py_max_shift w c m Hm)).
      f_equal. unfold log_weights_closed_form. rewrite !map_map.
      replace (Np.sum (map (fun x => exp (x + c - (m + c))) w))
        with (Np.sum (map (fun x => exp (x - m)) w)).
      + apply map_ext. intros x. lra.
      + f_equal. apply map_ext. intros x. f_equal. lra. }
  unfold Particles.init, Particles._set_and_norm_log_weights.
  rewrite length_map, Hn. reflexivity.
Qed.

(** C8.  A [params] that is not a dict raises [TypeError]; with a dict
    whose arrays all have length [N], log-likelihoods or raw log-weights
    of another length raise [ValueError]; and a construction that
    succeeds had both of length [N], the number of particles. *)
Theorem construction_checks (params : pyobj) (ll lw : Np.vec) :
  (Particles._is_dict params = false ->
   Particles.init params ll lw = inl TypeError) /\
  (forall items N,
     params = PyDict items ->
     (forall a, In a (map snd items) -> length a = N) ->
     length ll <> N \/ length lw <> N ->
     Particles.init params ll lw = inl ValueError) /\
  (forall p,
     Particles.init params ll lw = inr p ->
     exists items,
       params = PyDict items /\
       (forall a, In a (map snd items) ->
                  length a = Particles.num_particles p) /\
       length ll = Particles.num_particles p /\
       length lw = Particles.num_particles p).
Proof.
  split; [|split].
  - intros Hd. unfold Particles.init, Particles._set_params. rewrite Hd.
    reflexivity.
  - intros items N -> Hlen Hbad.
    unfold Particles.init, Particles._set_params. simpl.
    destruct (Np.vstack (map snd items)) as [e|stacked] eqn:Hv; simpl.
    + destruct (map snd items) as [|a rest]; simpl in Hv.
      * injection Hv as <-. reflexivity.
      * destruct (forallb (fun b => Nat.eqb (length b) (length a)) rest);
          [discriminate Hv | injection Hv as <-; reflexivity].
    + apply vstack_inv in Hv as [-> [Hne Hsh]].
      assert (HN : Np.shape0 (Np.transpose (map snd items)) = N).
      { unfold Np.shape0, Np.transpose. rewrite length_map, length_seq.
        destruct (map snd items) as [|a rest]; [contradiction|].
        simpl. apply Hlen. left; reflexivity. }
      rewrite HN.
      unfold Particles._set_log_likes, Particles._set_and_norm_log_weights.
      destruct (Nat.eqb (length ll) N) eqn:Hll; simpl; [|reflexivity].
      destruct (Nat.eqb (length lw) N) eqn:Hlw; simpl; [|reflexivity].
      apply Nat.eqb_eq in Hll, Hlw. destruct Hbad; contradiction.
  - intros p H.
    apply init_inv in H as (items & m & -> & _ & Hlen & Hll & Hlw & _ & ->).
    exists items. simpl. repeat split; assumption.
Qed.

Lemma construction_checks_witness :
  Particles.init PyNone [0; 0] [0; 0] = inl TypeError /\
  Particles.init two_params [0] [0; 0] = inl ValueError /\
  Particles.init two_params [0; 0] [0; 0; 0] = inl ValueError /\
  exists p, Particles.init two_params [0; 0] [0; 0] = inr p /\
            Particles.num_particles p = 2%nat.
Proof.
  split; [|split; [|split]].
  - apply (construction_checks PyNone [0; 0] [0; 0]). reflexivity.
  - apply (proj1 (proj2 (construction_checks two_params [0] [0; 0]))
             [("a"%string, [1; 2])] 2%nat eq_refl).
    + intros a [<-|[]]. reflexivity.
    + left. discriminate.
  - apply (proj1 (proj2 (construction_checks two_params [0; 0] [0; 0; 0]))
             [("a"%string, [1; 2])] 2%nat eq_refl).
    + intros a [<-|[]]. reflexivity.
    + right. discriminate.
  - destruct (two_params_accepted [0; 0] [0; 0] eq_refl eq_refl) as [p Hp].
    exists p. split; [exact Hp|].
    destruct (proj2 (proj2 (construction_checks two_params [0; 0] [0; 0]))
                p Hp) as (items & _ & _ & Hll & _).
    symmetry. exact Hll.
Defined.

(** ** Effective sample size *)

Lemma sum_nonneg (w : list R) :
  (forall x, In x w -> 0 <= x) -> 0 <= Np.sum w.
Proof.
  induction w as [|a w IH]; intros Hpos; simpl.
  - lra.
  - assert (0 <= a) by (apply Hpos; left; reflexivity).
    assert (0 <= Np.sum w) by (apply IH; intros x Hx; apply Hpos; right; assumption).
    lra.
Qed.

Lemma sum_sq_le_sq_sum (w : list R) :
  (forall x, In x w -> 0 <= x) -> sum_sq w <= Np.sum w * Np.sum w.
Proof.
  unfold sum_sq. induction w as [|a w IH]; intros Hpos; simpl.
  - lra.
  - assert (Ha : 0 <= a) by (apply Hpos; left; reflexivity).
    assert (Hw : forall x, In x w -> 0 <= x)
      by (intros x Hx; apply Hpos; right; assumption).
    specialize (IH Hw). pose proof (sum_nonneg w Hw) as Hs.
    nra.
Qed.

(** The Cauchy-Schwarz inequality against the constant vector 1. *)
Lemma sq_sum_le_length_sum_sq (w : list R) :
  Np.sum w * Np.sum w <= INR (length w) * sum_sq w.
Proof.
  unfold sum_sq. induction w as [|a w IH].
  - simpl. lra.
  - change (length (a :: w)) with (S (length w)). rewrite S_INR.
    simpl Np.sum. simpl map. simpl Np.sum.
    set (s := Np.sum w) in *. set (q := Np.sum (map (fun x => x * x) w)) in *.
    set (n := INR (length w)) in *.
    assert (Hn : 0 <= n) by apply pos_INR.
    assert (Hq : 0 <= q).
    { apply sum_nonneg. intros x Hx. apply in_map_iff in Hx as [y [<- _]].
      nra. }
    destruct (Req_dec n 0) as [Hz|Hnz].
    + rewrite Hz in *. assert (s = 0) by nra. subst s. nra.
    + assert (0 < n) by lra.
      assert (H2 : 2 * a * s * n <= n * n * a * a + n * q).
      { pose proof (Rle_0_sqr (n * a - s)) as Hsq. unfold Rsqr in Hsq. lra. }
      assert (H3 : 2 * a * s <= n * a * a + q).
      { apply Rmult_le_reg_r with n; [assumption|]. nra. }
      nra.
Qed.

Lemma sum_sq_repeat (x : R) (n : nat) :
  sum_sq (repeat x n) = INR n * (x * x).
Proof.
  unfold sum_sq. induction n as [|n IH].
  - simpl. lra.
  - rewrite S_INR. simpl repeat. simpl map. simpl Np.sum. rewrite IH. lra.
Qed.

Lemma all_equal_repeat (w : list R) (x : R) :
  (forall y, In y w -> y = x) -> w = repeat x (length w).
Proof.
  induction w as [|a w IH]; intros H; simpl.
  - reflexivity.
  - f_equal.
    + apply H. left; reflexivity.
    + apply IH. intros y Hy. apply H. right; assumption.
Qed.

Lemma init_well_formed (params : pyobj) (ll lw : Np.vec) (p : Particles.t) :
  Particles.init params ll lw = inr p -> well_formed p.
Proof.
  intros H.
  apply init_inv in H as (items & m & -> & Hne & Hlen & Hll & Hlw & Hm & ->).
  assert (Hlwne : lw <> []) by (destruct lw; [discriminate Hm | discriminate]).
  constructor; simpl.
  - rewrite <- Hlw. destruct lw; [congruence | simpl; lia].
  - unfold Np.transpose. rewrite length_map, length_seq. reflexivity.
  - intros r Hr. unfold Np.transpose in Hr.
    apply in_map_iff in Hr as [k [<- _]].
    unfold Np.column. rewrite !length_map. reflexivity.
  - rewrite length_map. rewrite <- (length_map snd).
    destruct (map snd items); [congruence | simpl; lia].
  - assumption.
  - unfold log_weights_closed_form. rewrite !length_map. assumption.
  - reflexivity.
  - intros x Hx. apply in_map_iff in Hx as [y [<- _]]. apply exp_pos.
  - apply sum_exp_closed_form. assumption.
Qed.

Lemma well_formed_sum_sq_bounds (p : Particles.t) :
  well_formed p ->
  / INR (Particles.num_particles p) <= sum_sq (Particles.weights p) <= 1.
Proof.
  intros W.
  assert (Hpos : forall x, In x (Particles.weights p) -> 0 <= x).
  { intros x Hx. left. apply (wf_weights_pos p W). assumption. }
  pose proof (sum_sq_le_sq_sum _ Hpos) as Hup.
  pose proof (sq_sum_le_length_sum_sq (Particles.weights p)) as Hlow.
  rewrite (wf_weights_sum p W) in Hup, Hlow.
  rewrite (wf_weights_len p W) in Hlow.
  assert (HN : 0 < INR (Particles.num_particles p)).
  { apply lt_0_INR. apply (wf_num_pos p W). }
  split; [|lra].
  apply Rmult_le_reg_l with (INR (Particles.num_particles p)); [assumption|].
  rewrite Rinv_r by lra. lra.
Qed.

(** C6.  For a constructed population of N particles, [compute_ess] is
    [1 / sum_i weight_i^2], it lies in [1, N], and it is N when every
    weight is [1/N]. *)
Theorem compute_ess_range
    (params : pyobj) (ll lw : Np.vec) (p : Particles.t) :
  Particles.init params ll lw = inr p ->
  Particles.compute_ess p
    = 1 / Np.sum (map (fun w => w * w) (Particles.weights p)) /\
  1 <= Particles.compute_ess p <= INR (Particles.num_particles p) /\
  ((forall w, In w (Particles.weights p) ->
              w = 1 / INR (Particles.num_particles p)) ->
   Particles.compute_ess p = INR (Particles.num_particles p)).
Proof.
  intros H. pose proof (init_well_formed _ _ _ _ H) as W.
  pose proof (well_formed_sum_sq_bounds p W) as [Hlow Hup].
  assert (HN : 0 < INR (Particles.num_particles p)).
  { apply lt_0_INR. apply (wf_num_pos p W). }
  assert (Hinv : 0 < / INR (Particles.num_particles p))
    by (apply Rinv_0_lt_compat; assumption).
  unfold Particles.compute_ess. fold (sum_sq (Particles.weights p)).
  set (q := sum_sq (Particles.weights p)) in *.
  assert (Hq : 0 < q) by lra.
  split; [reflexivity|]. split; [split|].
  - apply Rmult_le_reg_r with q; [assumption|].
    unfold Rdiv. rewrite Rmult_assoc, Rinv_l by lra. lra.
  - apply Rmult_le_reg_r with q; [assumption|].
    unfold Rdiv. rewrite Rmult_assoc, Rinv_l by lra.
    apply Rmult_le_compat_l with (r := INR (Particles.num_particles p))
      in Hlow; [|lra].
    rewrite Rinv_r in Hlow by lra. lra.
  - intros Hu. apply all_equal_repeat in Hu.
    rewrite (wf_weights_len p W) in Hu.
    subst q. rewrite Hu, sum_sq_repeat. field. lra.
Qed.

Lemma compute_ess_range_witness :
  exists p, Particles.init two_params [0; 0] [3; 5] = inr p /\
            1 <= Particles.compute_ess p <= INR 2.
Proof.
  destruct (two_params_accepted [0; 0] [3; 5] eq_refl eq_refl) as [p Hp].
  exists p. split; [exact Hp|].
  destruct (compute_ess_range _ _ _ _ Hp) as (_ & Hr & _).
  destruct (init_inv _ _ _ _ Hp) as (items & m & Hi & _ & _ & _ & _ & _ & Hq).
  injection Hi as <-.
  assert (HN : Particles.num_particles p = 2%nat) by (rewrite Hq; reflexivity).
  rewrite HN in Hr. exact Hr.
Defined.

(** ** Array lemmas *)

Lemma length_map2 {A B C : Type} (f : A -> B -> C) (l : list A) (l' : list B) :
  length (Np.map2 f l l') = Nat.min (length l) (length l').
Proof.
  revert l'; induction l as [|a l IH]; intros [|b l']; simpl; auto.
Qed.

Lemma map2_map_l {A A' B C : Type} (f : A' -> B -> C) (g : A -> A')
    (l : list A) (l' : list B) :
  Np.map2 f (map g l) l' = Np.map2 (fun a b => f (g a) b) l l'.
Proof.
  revert l'; induction l as [|a l IH]; intros [|b l']; simpl; auto.
  f_equal. apply IH.
Qed.

Lemma map2_map_r {A B B' C : Type} (f : A -> B' -> C) (g : B -> B')
    (l : list A) (l' : list B) :
  Np.map2 f l (map g l') = Np.map2 (fun a b => f a (g b)) l l'.
Proof.
  revert l'; induction l as [|a l IH]; intros [|b l']; simpl; auto.
  f_equal. apply IH.
Qed.

Lemma map_map2 {A B C D : Type} (g : C -> D) (f : A -> B -> C)
    (l : list A) (l' : list B) :
  map g (Np.map2 f l l') = Np.map2 (fun a b => g (f a b)) l l'.
Proof.
  revert l'; induction l as [|a l IH]; intros [|b l']; simpl; auto.
  f_equal. apply IH.
Qed.

Lemma map2_ext_in {A B C : Type} (f g : A -> B -> C)
    (l : list A) (l' : list B) :
  (forall a b, In a l -> In b l' -> f a b = g a b) ->
  Np.map2 f l l' = Np.map2 g l l'.
Proof.
  revert l'; induction l as [|a l IH]; intros [|b l'] H; simpl; auto.
  f_equal.
  - apply H; left; reflexivity.
  - apply IH. intros x y Hx Hy. apply H; right; assumption.
Qed.

Lemma map2_flip {A B C : Type} (f : A -> B -> C) (l : list A) (l' : list B) :
  Np.map2 f l l' = Np.map2 (fun b a => f a b) l' l.
Proof.
  revert l'; induction l as [|a l IH]; intros [|b l']; simpl; auto.
  f_equal. apply IH.
Qed.

Lemma nth_map2 {A B C : Type} (f : A -> B -> C) (l : list A) (l' : list B)
    (i : nat) (da : A) (db : B) (dc : C) :
  (i < length l)%nat -> (i < length l')%nat ->
  nth i (Np.map2 f l l') dc = f (nth i l da) (nth i l' db).
Proof.
  revert l l'; induction i as [|i IH]; intros [|a l] [|b l'] Hl Hl';
    simpl in *; try lia; auto.
  apply IH; lia.
Qed.

Lemma nth_map_zero (f : R -> R) (r : list R) (k : nat) :
  f 0 = 0 -> nth k (map f r) 0 = f (nth k r 0).
Proof.
  intros H. transitivity (nth k (map f r) (f 0)).
  - rewrite H. reflexivity.
  - apply map_nth.
Qed.

Lemma nth_map_seq {A : Type} (f : nat -> A) (n j : nat) (d : A) :
  (j < n)%nat -> nth j (map f (seq 0 n)) d = f j.
Proof.
  intros H. rewrite (nth_indep _ d (f 0%nat)) by (rewrite length_map, length_seq; assumption).
  rewrite map_nth, seq_nth by assumption. reflexivity.
Qed.

Lemma map_nth_seq_id (l : list R) :
  map (fun i => nth i l 0) (seq 0 (length l)) = l.
Proof.
  apply nth_ext with (d := 0) (d' := 0).
  - rewrite length_map, length_seq. reflexivity.
  - intros n Hn. rewrite length_map, length_seq in Hn.
    rewrite (nth_map_seq (fun i => nth i l 0)) by assumption. reflexivity.
Qed.

Lemma nth_column (k i : nat) (m : Np.mat) :
  nth i (Np.column k m) 0 = Np.get m i k.
Proof.
  unfold Np.column, Np.get.
  transitivity (nth i (map (fun r => nth k r 0) m) ((fun r => nth k r 0) [])).
  - destruct k; reflexivity.
  - apply (map_nth (fun r => nth k r 0)).
Qed.

Lemma shape1_has_shape (m : Np.mat) (n c : nat) :
  has_shape m n c -> (0 < n)%nat -> Np.shape1 m = c.
Proof.
  intros [Hn Hc] Hpos. destruct m as [|r m]; simpl in *; [lia|].
  apply Hc. left; reflexivity.
Qed.

Lemma transpose_has_shape (m : Np.mat) (n c : nat) :
  has_shape m n c -> (0 < n)%nat -> has_shape (Np.transpose m) c n.
Proof.
  intros H Hpos. pose proof (shape1_has_shape m n c H Hpos) as Hs.
  destruct H as [Hn Hc]. unfold Np.transpose. rewrite Hs. split.
  - rewrite length_map, length_seq. reflexivity.
  - intros r Hr. apply in_map_iff in Hr as [k [<- _]].
    unfold Np.column. rewrite length_map. assumption.
Qed.

Lemma get_transpose (m : Np.mat) (n c i k : nat) :
  has_shape m n c -> (0 < n)%nat -> (i < c)%nat ->
  Np.get (Np.transpose m) i k = Np.get m k i.
Proof.
  intros H Hpos Hi. pose proof (shape1_has_shape m n c H Hpos) as Hs.
  unfold Np.get at 1. unfold Np.transpose. rewrite Hs.
  rewrite nth_map_seq by assumption. apply nth_column.
Qed.

Lemma column_transpose (m : Np.mat) (n c j : nat) :
  has_shape m n c -> (0 < n)%nat -> (j < n)%nat ->
  Np.column j (Np.transpose m) = nth j m [].
Proof.
  intros H Hpos Hj. pose proof (shape1_has_shape m n c H Hpos) as Hs.
  destruct H as [Hn Hc].
  assert (Hlen : length (nth j m []) = c).
  { apply Hc. apply nth_In. lia. }
  unfold Np.column at 1. unfold Np.transpose. rewrite Hs, map_map.
  etransitivity; [|apply (map_nth_seq_id (nth j m []))]. rewrite Hlen.
  apply map_ext. intros k. rewrite nth_column. reflexivity.
Qed.

(** ** Columns of the broadcast operations *)

Lemma column_mul_mat_col (X : Np.mat) (w : Np.vec) (k : nat) :
  Np.column k (Np.mul_mat_col X w) = Np.map2 Rmult (Np.column k X) w.
Proof.
  unfold Np.column, Np.mul_mat_col. rewrite map_map2, map2_map_l.
  apply map2_ext_in. intros r c _ _.
  apply (nth_map_zero (fun x => x * c)). lra.
Qed.

Lemma column_mul_col_mat (w : Np.vec) (X : Np.mat) (k : nat) :
  Np.column k (Np.mul_col_mat w X) = Np.map2 Rmult w (Np.column k X).
Proof.
  unfold Np.column, Np.mul_col_mat. rewrite map_map2, map2_map_r.
  apply map2_ext_in. intros c r _ _.
  apply (nth_map_zero (fun x => c * x)). lra.
Qed.

Lemma column_square (X : Np.mat) (k : nat) :
  Np.column k (Np.square X) = map (fun x => x * x) (Np.column k X).
Proof.
  unfold Np.column, Np.square. rewrite !map_map.
  apply map_ext. intros r. apply (nth_map_zero (fun x => x * x)). lra.
Qed.

Lemma column_sub_mat_row (X : Np.mat) (v : Np.vec) (n c k : nat) :
  has_shape X n c -> length v = c -> (k < c)%nat ->
  Np.column k (Np.sub_mat_row X v)
  = map (fun x => x - nth k v 0) (Np.column k X).
Proof.
  intros [_ Hc] Hv Hk. unfold Np.column, Np.sub_mat_row. rewrite !map_map.
  apply map_ext_in. intros r Hr.
  apply nth_map2; [rewrite (Hc r Hr) | rewrite Hv]; assumption.
Qed.

Lemma mul_mat_col_has_shape (X : Np.mat) (w : Np.vec) (n c : nat) :
  has_shape X n c -> length w = n -> has_shape (Np.mul_mat_col X w) n c.
Proof.
  intros [Hn Hc] Hw. unfold Np.mul_mat_col. split.
  - rewrite length_map2. lia.
  - clear Hn Hw. revert w. induction X as [|r X IH]; intros [|a w] s Hs;
      simpl in Hs; try contradiction.
    destruct Hs as [<-|Hs].
    + rewrite length_map. apply Hc. left; reflexivity.
    + apply (IH (fun r' H' => Hc r' (or_intror H')) w s Hs).
Qed.

Lemma mul_col_mat_has_shape (w : Np.vec) (X : Np.mat) (n c : nat) :
  has_shape X n c -> length w = n -> has_shape (Np.mul_col_mat w X) n c.
Proof.
  intros [Hn Hc] Hw. unfold Np.mul_col_mat. split.
  - rewrite length_map2. lia.
  - clear Hn Hw. revert w. induction X as [|r X IH]; intros [|a w] s Hs;
      simpl in Hs; try contradiction.
    destruct Hs as [<-|Hs].
    + rewrite length_map. apply Hc. left; reflexivity.
    + apply (IH (fun r' H' => Hc r' (or_intror H')) w s Hs).
Qed.

Lemma sub_mat_row_has_shape (X : Np.mat) (v : Np.vec) (n c : nat) :
  has_shape X n c -> length v = c -> has_shape (Np.sub_mat_row X v) n c.
Proof.
  intros [Hn Hc] Hv. unfold Np.sub_mat_row. split.
  - rewrite length_map. assumption.
  - intros r Hr. apply in_map_iff in Hr as [r' [<- Hr']].
    rewrite length_map2, (Hc r' Hr'), Hv. lia.
Qed.

Lemma square_has_shape (X : Np.mat) (n c : nat) :
  has_shape X n c -> has_shape (Np.square X) n c.
Proof.
  intros [Hn Hc]. unfold Np.square. split.
  - rewrite length_map. assumption.
  - intros r Hr. apply in_map_iff in Hr as [r' [<- Hr']].
    rewrite length_map. apply Hc. assumption.
Qed.

Lemma sum_axis0_length (X : Np.mat) (n c : nat) :
  has_shape X n c -> (0 < n)%nat -> length (Np.sum_axis0 X) = c.
Proof.
  intros H Hpos. unfold Np.sum_axis0.
  rewrite length_map, length_seq. apply (shape1_has_shape X n c H Hpos).
Qed.

Lemma sum_axis0_nth (X : Np.mat) (n c k : nat) :
  has_shape X n c -> (0 < n)%nat -> (k < c)%nat ->
  nth k (Np.sum_axis0 X) 0 = Np.sum (Np.column k X).
Proof.
  intros H Hpos Hk. unfold Np.sum_axis0.
  rewrite (shape1_has_shape X n c H Hpos).
  apply (nth_map_seq (fun j => Np.sum (Np.column j X))). assumption.
Qed.

Lemma well_formed_params_shape (p : Particles.t) :
  well_formed p ->
  has_shape (Particles.params p) (Particles.num_particles p)
    (length (Particles.param_names p)).
Proof.
  intros W. split; [apply (wf_rows p W) | apply (wf_cols p W)].
Qed.

(** ** Mean, variance and standard deviation *)

Lemma compute_mean_length (p : Particles.t) :
  well_formed p ->
  length (Particles.compute_mean p) = length (Particles.param_names p).
Proof.
  intros W. unfold Particles.compute_mean.
  apply sum_axis0_length with (n := Particles.num_particles p).
  - apply mul_mat_col_has_shape;
      [apply well_formed_params_shape; assumption | apply (wf_weights_len p W)].
  - apply (wf_num_pos p W).
Qed.

Lemma compute_mean_nth (p : Particles.t) (j : nat) :
  well_formed p -> (j < length (Particles.param_names p))%nat ->
  nth j (Particles.compute_mean p) 0
  = Np.sum (Np.map2 Rmult (Np.column j (Particles.params p))
              (Particles.weights p)).
Proof.
  intros W Hj. unfold Particles.compute_mean.
  rewrite (sum_axis0_nth _ (Particles.num_particles p)
             (length (Particles.param_names p))).
  - rewrite column_mul_mat_col. reflexivity.
  - apply mul_mat_col_has_shape;
      [apply well_formed_params_shape; assumption | apply (wf_weights_len p W)].
  - apply (wf_num_pos p W).
  - assumption.
Qed.

Lemma compute_variance_length (p : Particles.t) :
  well_formed p ->
  length (Particles.compute_variance p) = length (Particles.param_names p).
Proof.
  intros W. unfold Particles.compute_variance. rewrite length_map.
  apply sum_axis0_length with (n := Particles.num_particles p).
  - apply mul_col_mat_has_shape; [|apply (wf_weights_len p W)].
    apply square_has_shape, sub_mat_row_has_shape.
    + apply well_formed_params_shape; assumption.
    + apply compute_mean_length; assumption.
  - apply (wf_num_pos p W).
Qed.

Lemma compute_variance_nth (p : Particles.t) (j : nat) :
  well_formed p -> (j < length (Particles.param_names p))%nat ->
  nth j (Particles.compute_variance p) 0
  = Np.sum (Np.map2
              (fun w x => w * (x - nth j (Particles.compute_mean p) 0) ^ 2)
              (Particles.weights p) (Np.column j (Particles.params p)))
    / (1 - Np.sum (map (fun w => w * w) (Particles.weights p))).
Proof.
  intros W Hj. unfold Particles.compute_variance.
  set (norm := 1 - Np.sum (map (fun w => w * w) (Particles.weights p))).
  set (means := Particles.compute_mean p).
  pose proof (well_formed_params_shape p W) as HX.
  pose proof (compute_mean_length p W) as Hm. fold means in Hm.
  rewrite (nth_map_zero (fun s => s / norm)) by (unfold Rdiv; lra).
  f_equal.
  rewrite (sum_axis0_nth _ (Particles.num_particles p)
             (length (Particles.param_names p))).
  - rewrite column_mul_col_mat, column_square.
    rewrite (column_sub_mat_row _ _ _ _ _ HX Hm Hj).
    rewrite map_map, map2_map_r. f_equal.
    apply map2_ext_in. intros w x _ _. ring.
  - apply mul_col_mat_has_shape; [|apply (wf_weights_len p W)].
    apply square_has_shape, sub_mat_row_has_shape; assumption.
  - apply (wf_num_pos p W).
  - assumption.
Qed.

Lemma init_params_column (items : list (string * list R)) (ll lw : Np.vec)
    (p : Particles.t) (j : nat) :
  Particles.init (PyDict items) ll lw = inr p ->
  (j < length items)%nat ->
  Np.column j (Particles.params p) = nth j (map snd items) [] /\
  length (Particles.param_names p) = length items.
Proof.
  intros H Hj. pose proof (init_well_formed _ _ _ _ H) as W.
  apply init_inv in H as (items' & m & Hi & Hne & Hlen & _ & _ & _ & ->).
  injection Hi as <-. simpl. split; [|apply length_map].
  apply column_transpose
    with (n := length items) (c := Np.shape1 (map snd items)).
  - split; [apply length_map | assumption].
  - lia.
  - assumption.
Qed.

(** C7.  For the parameter at position [j], with values [xs] over the
    particles, [compute_variance] gives
    [sum_i w_i (x_i - mean)^2 / (1 - sum_i w_i^2)] with [mean] the entry of
    [compute_mean], itself [sum_i x_i w_i]; [compute_std_dev] is the
    entrywise square root of [compute_variance]. *)
Theorem compute_variance_formula
    (items : list (string * list R)) (ll lw : Np.vec) (p : Particles.t)
    (j : nat) :
  Particles.init (PyDict items) ll lw = inr p ->
  (j < length items)%nat ->
  let xs := nth j (map snd items) [] in
  let w := Particles.weights p in
  let mean := nth j (Particles.compute_mean p) 0 in
  mean = Np.sum (Np.map2 Rmult xs w) /\
  nth j (Particles.compute_variance p) 0
    = Np.sum (Np.map2 (fun wi x => wi * (x - mean) ^ 2) w xs)
      / (1 - Np.sum (map (fun wi => wi * wi) w)) /\
  Particles.compute_std_dev p = map sqrt (Particles.compute_variance p) /\
  nth j (Particles.compute_std_dev p) 0
    = sqrt (nth j (Particles.compute_variance p) 0) /\
  length (Particles.compute_variance p) = length items.
Proof.
  intros H Hj. pose proof (init_well_formed _ _ _ _ H) as W.
  destruct (init_params_column items ll lw p j H Hj) as [Hcol HP].
  assert (Hj' : (j < length (Particles.param_names p))%nat) by lia.
  cbv zeta. rewrite <- Hcol. repeat split.
  - apply compute_mean_nth; assumption.
  - apply compute_variance_nth; assumption.
  - unfold Particles.compute_std_dev. apply nth_map_zero. apply sqrt_0.
  - rewrite compute_variance_length by assumption. assumption.
Qed.

Lemma compute_variance_formula_witness :
  exists p, Particles.init two_params [0; 0] [0; 0] = inr p /\
    nth 0 (Particles.compute_variance p) 0
    = Np.sum (Np.map2
                (fun wi x =>
                   wi * (x - nth 0 (Particles.compute_mean p) 0) ^ 2)
                (Particles.weights p) [1; 2])
      / (1 - Np.sum (map (fun wi => wi * wi) (Particles.weights p))).
Proof.
  destruct (two_params_accepted [0; 0] [0; 0] eq_refl eq_refl) as [p Hp].
  exists p. split; [exact Hp|].
  assert (Hj : (0 < length [("a"%string, [1; 2])])%nat) by (simpl; lia).
  destruct (compute_variance_formula _ _ _ p 0%nat Hp Hj) as (_ & Hv & _).
  exact Hv.
Defined.

(** ** Covariance *)

Lemma get_scale (M : Np.mat) (s : R) (j k : nat) :
  Np.get (Np.scale M s) j k = Np.get M j k * s.
Proof.
  unfold Np.get, Np.scale.
  change (@nil R) with (map (fun x => x * s) []) at 1.
  rewrite (map_nth (map (fun x => x * s))).
  apply (nth_map_zero (fun x => x * s)). lra.
Qed.

Lemma scale_has_shape (M : Np.mat) (s : R) (n c : nat) :
  has_shape M n c -> has_shape (Np.scale M s) n c.
Proof.
  intros [Hn Hc]. unfold Np.scale. split.
  - rewrite length_map. assumption.
  - intros r Hr. apply in_map_iff in Hr as [r' [<- Hr']].
    rewrite length_map. apply Hc. assumption.
Qed.

Lemma dot_has_shape (A B : Np.mat) (a n c : nat) :
  length A = a -> has_shape B n c -> (0 < n)%nat ->
  has_shape (Np.dot A B) a c.
Proof.
  intros HA HB Hpos. unfold Np.dot.
  rewrite (shape1_has_shape B n c HB Hpos). split.
  - rewrite length_map. assumption.
  - intros r Hr. apply in_map_iff in Hr as [r' [<- _]].
    rewrite length_map, length_seq. reflexivity.
Qed.

Lemma get_dot (A B : Np.mat) (n c j k : nat) :
  has_shape B n c -> (0 < n)%nat -> (j < length A)%nat -> (k < c)%nat ->
  Np.get (Np.dot A B) j k = Np.inner (nth j A []) (Np.column k B).
Proof.
  intros HB Hpos Hj Hk. unfold Np.get, Np.dot.
  rewrite (shape1_has_shape B n c HB Hpos).
  rewrite (nth_indep _ []
             (map (fun k0 => Np.inner [] (Np.column k0 B)) (seq 0 c)))
    by (rewrite length_map; assumption).
  rewrite (map_nth
             (fun ra => map (fun k0 => Np.inner ra (Np.column k0 B))
                          (seq 0 c))
             A [] j).
  apply (nth_map_seq (fun k0 => Np.inner (nth j A []) (Np.column k0 B))).
  assumption.
Qed.

Lemma nth_transpose_row (M : Np.mat) (n c j : nat) :
  has_shape M n c -> (0 < n)%nat -> (j < c)%nat ->
  nth j (Np.transpose M) [] = Np.column j M.
Proof.
  intros H Hpos Hj. unfold Np.transpose.
  rewrite (shape1_has_shape M n c H Hpos).
  apply (nth_map_seq (fun k => Np.column k M)). assumption.
Qed.



Lemma mat_ext (M M' : Np.mat) (n c : nat) :
  has_shape M n c -> has_shape M' n c ->
  (forall j k, (j < n)%nat -> (k < c)%nat -> Np.get M j k = Np.get M' j k) ->
  M = M'.
Proof.
  intros [Hn Hc] [Hn' Hc'] Hget.
  apply nth_ext with (d := []) (d' := []); [congruence|].
  intros j Hj. rewrite Hn in Hj.
  assert (Hr : length (nth j M []) = c) by (apply Hc, nth_In; lia).
  assert (Hr' : length (nth j M' []) = c) by (apply Hc', nth_In; lia).
  apply nth_ext with (d := 0) (d' := 0); [congruence|].
  intros k Hk. rewrite Hr in Hk. apply (Hget j k); assumption.
Qed.


Lemma weighted_covariance_has_shape (p : Particles.t) :
  well_formed p ->
  has_shape (Particles.weighted_covariance p)
    (length (Particles.param_names p)) (length (Particles.param_names p)).
Proof.
  intros W. unfold Particles.weighted_covariance.
  pose proof (well_formed_params_shape p W) as HX.
  pose proof (compute_mean_length p W) as Hm.
  pose proof (sub_mat_row_has_shape _ _ _ _ HX Hm) as Hd.
  apply scale_has_shape.
  apply dot_has_shape with (n := Particles.num_particles p).
  - apply (transpose_has_shape _ _ _ Hd). apply (wf_num_pos p W).
  - apply mul_mat_col_has_shape; [assumption | apply (wf_weights_len p W)].
  - apply (wf_num_pos p W).
Qed.

Lemma weighted_covariance_entry (p : Particles.t) (j k : nat) :
  well_formed p ->
  (j < length (Particles.param_names p))%nat ->
  (k < length (Particles.param_names p))%nat ->
  let diff := Np.sub_mat_row (Particles.params p) (Particles.compute_mean p) in
  Np.get (Particles.weighted_covariance p) j k
  = Np.sum (Np.map2 Rmult (Np.column j diff)
              (Np.map2 Rmult (Np.column k diff) (Particles.weights p)))
    * (1 / (1 - Np.sum (map (fun w => w * w) (Particles.weights p)))).
Proof.
  intros W Hj Hk diff. unfold Particles.weighted_covariance. fold diff.
  pose proof (well_formed_params_shape p W) as HX.
  pose proof (compute_mean_length p W) as Hm.
  pose proof (sub_mat_row_has_shape _ _ _ _ HX Hm) as Hd. fold diff in Hd.
  pose proof (wf_num_pos p W) as Hpos.
  pose proof (transpose_has_shape _ _ _ Hd Hpos) as [HTn _].
  rewrite get_scale. f_equal.
  rewrite (get_dot _ _ (Particles.num_particles p)
             (length (Particles.param_names p))).
  - rewrite (nth_transpose_row _ _ _ _ Hd Hpos Hj).
    rewrite column_mul_mat_col. reflexivity.
  - apply mul_mat_col_has_shape; [assumption | apply (wf_weights_len p W)].
  - assumption.
  - rewrite HTn. assumption.
  - assumption.
Qed.



Lemma get_repaired (C : Np.mat) (n j k : nat) :
  has_shape C n n -> (0 < n)%nat -> (j < n)%nat -> (k < n)%nat ->
  Np.get (repaired C) j k = if Nat.eqb j k then Np.get C j j else 0.
Proof.
  intros H Hpos Hj Hk. pose proof (shape1_has_shape C n n H Hpos) as Hs.
  destruct H as [Hn Hc]. unfold repaired, Np.mul_mat_row, Np.eye, Np.diag.
  unfold Np.shape0. rewrite Hs, Hn, Nat.min_id. unfold Np.get at 1.
  rewrite map_map.
  rewrite (nth_map_seq
             (fun x => Np.map2 Rmult
                         (map (fun k0 => if Nat.eqb x k0 then 1 else 0)
                            (seq 0 n))
                         (map (fun j0 => Np.get C j0 j0) (seq 0 n))))
    by assumption.
  rewrite (nth_map2 Rmult _ _ k 0 0 0)
    by (rewrite length_map, length_seq; assumption).
  rewrite (nth_map_seq (fun k0 => if Nat.eqb j k0 then 1 else 0)) by assumption.
  rewrite (nth_map_seq (fun j0 => Np.get C j0 j0)) by assumption.
  destruct (Nat.eqb j k) eqn:E.
  - apply Nat.eqb_eq in E. subst k. lra.
  - lra.
Qed.




(** ** The initializer *)

Lemma sum_repeat (x : R) (n : nat) : Np.sum (repeat x n) = INR n * x.
Proof.
  induction n as [|n IH].
  - simpl. lra.
  - rewrite S_INR. simpl repeat. simpl Np.sum. rewrite IH. lra.
Qed.

Lemma map_repeat_R (f : R -> R) (x : R) (n : nat) :
  map f (repeat x n) = repeat (f x) n.
Proof. induction n as [|n IH]; simpl; [reflexivity | rewrite IH; reflexivity]. Qed.

(** Equal raw log-weights give equal weights [1/n]. *)
Lemma uniform_closed_form (c m : R) (n : nat) :
  (0 < n)%nat -> py_max (repeat c n) = inr m ->
  map exp (log_weights_closed_form (repeat c n) m) = repeat (1 / INR n) n.
Proof.
  intros Hn Hm. apply py_max_spec in Hm as [Hin _].
  apply repeat_spec in Hin. subst m.
  unfold log_weights_closed_form. rewrite !map_repeat_R, sum_repeat.
  f_equal.
  replace (c - c) with 0 by lra. rewrite exp_0, Rmult_1_r.
  assert (0 < INR n) by (apply lt_0_INR; assumption).
  unfold Rminus. rewrite Rplus_0_l, exp_Ropp, exp_ln by assumption.
  unfold Rdiv. lra.
Qed.

(** C3.  When [init_particles_from_prior] returns a population, every
    raw log-weight it passed to the container is [log (1/num_particles)],
    the population's log-likelihoods are the kernel's answer, and every
    weight is [1/num_particles]; the kernel was asked for the sample, then
    for the log-likelihoods. *)
Theorem init_particles_from_prior_uniform
    (self : Initializer.t) (n : Z) (log log' : list Initializer.call)
    (p : Particles.t) :
  Initializer.init_particles_from_prior self n log = (log', inr p) ->
  let k := Initializer.mcmc_kernel self in
  let params := Initializer.sample_from_prior k log n in
  let log_likes :=
    Initializer.get_log_likelihoods k
      (log ++ [Initializer.SampleFromPrior n]) params in
  let raw := repeat (ln (1 / IZR n)) (Z.to_nat n) in
  (0 < n)%Z /\
  Initializer.prior_log_weights n = inr raw /\
  (forall x, In x raw -> x = ln (1 / IZR n)) /\
  Particles.init params log_likes raw = inr p /\
  Particles.log_likes p = log_likes /\
  Particles.num_particles p = Z.to_nat n /\
  Particles.weights p = repeat (1 / IZR n) (Z.to_nat n) /\
  log' = log ++ [Initializer.SampleFromPrior n;
                 Initializer.GetLogLikelihoods params].
Proof.
  cbv zeta.
  unfold Initializer.init_particles_from_prior, Initializer.mbind,
    Initializer.do_sample_from_prior, Initializer.do_get_log_likelihoods,
    Initializer.lift, Initializer.prior_log_weights, Initializer.py_one_over,
    Initializer.py_list_repeat.
  simpl.
  destruct (Z.eqb n 0) eqn:Hz; simpl; [discriminate|].
  set (k := Initializer.mcmc_kernel self).
  set (params := Initializer.sample_from_prior k log n).
  set (lls := Initializer.get_log_likelihoods k _ params).
  intros H. injection H as Hlog Hp.
  apply Z.eqb_neq in Hz.
  pose proof (init_well_formed _ _ _ _ Hp) as W.
  pose proof (init_inv _ _ _ _ Hp)
    as (items & m & Hi & _ & _ & _ & Hlw & Hm & Hq).
  assert (HN : Particles.num_particles p = Z.to_nat n).
  { rewrite Hq. simpl. rewrite <- Hlw. apply repeat_length. }
  pose proof (wf_num_pos p W) as Hpos. rewrite HN in Hpos.
  assert (Hn : (0 < n)%Z) by lia.
  assert (HR : INR (Z.to_nat n) = IZR n).
  { rewrite INR_IZR_INZ, Z2Nat.id by lia. reflexivity. }
  split; [assumption|]. split; [reflexivity|].
  split; [intros x Hx; apply (repeat_spec _ _ _ Hx)|].
  split; [assumption|].
  split; [rewrite Hq; reflexivity|]. split; [assumption|].
  split.
  - rewrite Hq. simpl. rewrite (uniform_closed_form _ m _ Hpos Hm), HR.
    reflexivity.
  - rewrite <- Hlog, <- app_assoc. reflexivity.
Qed.

Lemma init_particles_from_prior_uniform_witness :
  exists log' p,
    Initializer.init_particles_from_prior
      (Initializer.mk (constant_kernel [0; 0] [0; 0])) 2 [] = (log', inr p) /\
    Particles.weights p = repeat (1 / IZR 2) 2.
Proof.
  destruct (two_params_accepted [0; 0] (repeat (ln (1 / IZR 2)) 2)
              eq_refl eq_refl) as [p Hp].
  assert (Hrun : Initializer.init_particles_from_prior
                   (Initializer.mk (constant_kernel [0; 0] [0; 0])) 2 []
                 = ([Initializer.SampleFromPrior 2;
                     Initializer.GetLogLikelihoods two_params], inr p)).
  { unfold Initializer.init_particles_from_prior, Initializer.mbind,
      Initializer.do_sample_from_prior, Initializer.do_get_log_likelihoods,
      Initializer.lift, Initializer.prior_log_weights,
      Initializer.py_one_over, Initializer.py_list_repeat.
    simpl. simpl in Hp. rewrite Hp. reflexivity. }
  exists [Initializer.SampleFromPrior 2;
          Initializer.GetLogLikelihoods two_params], p.
  split; [exact Hrun|].
  destruct (init_particles_from_prior_uniform _ _ _ _ _ Hrun)
    as (_ & _ & _ & _ & _ & _ & Hw & _).
  exact Hw.
Defined.




(** ** The partition of the particle count *)

Lemma zsum_app (l l' : list Z) : zsum (l ++ l') = (zsum l + zsum l')%Z.
Proof.
  induction l as [|x l IH]; simpl; [reflexivity|]. rewrite IH. lia.
Qed.

Lemma zsum_extra (q rem : Z) (n : nat) :
  (0 <= rem)%Z ->
  zsum (map (fun r => (q + (if Z.of_nat r <? rem then 1 else 0))%Z) (seq 0 n))
  = (Z.of_nat n * q + Z.min (Z.of_nat n) rem)%Z.
Proof.
  intros Hrem. induction n as [|n IH].
  - simpl. lia.
  - rewrite seq_S, map_app, zsum_app, IH. simpl zsum.
    destruct (Z.ltb_spec (Z.of_nat n) rem); lia.
Qed.

(** C2.  For [total >= 0] and [size >= 1], rank [r] of [0 .. size-1]
    gets [total / size], and one more when [r < total mod size]; no count
    is negative, the counts of all ranks add up to [total], and two counts
    differ by at most 1. *)
Theorem get_num_particles_in_partition_even (size total : Z) :
  (0 <= total)%Z -> (1 <= size)%Z ->
  (forall rank, (0 <= rank < size)%Z ->
     Initializer.get_num_particles_in_partition size total rank
     = (total / size + (if rank <? total mod size then 1 else 0))%Z /\
     (0 <= Initializer.get_num_particles_in_partition size total rank)%Z) /\
  length (Initializer.partition_counts size total) = Z.to_nat size /\
  zsum (Initializer.partition_counts size total) = total /\
  (forall r1 r2, (0 <= r1 < size)%Z -> (0 <= r2 < size)%Z ->
     (Z.abs (Initializer.get_num_particles_in_partition size total r1
             - Initializer.get_num_particles_in_partition size total r2)
      <= 1)%Z).
Proof.
  intros Htot Hsize.
  assert (Hq : (0 <= total / size)%Z) by (apply Z.div_pos; lia).
  assert (Hrem : (0 <= total mod size < size)%Z)
    by (apply Z.mod_pos_bound; lia).
  split; [|split; [|split]].
  - intros rank _. split; [reflexivity|].
    unfold Initializer.get_num_particles_in_partition.
    destruct (rank <? total mod size)%Z; lia.
  - unfold Initializer.partition_counts.
    rewrite length_map, length_seq. reflexivity.
  - unfold Initializer.partition_counts,
      Initializer.get_num_particles_in_partition.
    rewrite (zsum_extra (total / size) (total mod size) (Z.to_nat size))
      by lia.
    rewrite Z2Nat.id by lia.
    pose proof (Z.div_mod total size ltac:(lia)). lia.
  - intros r1 r2 _ _. unfold Initializer.get_num_particles_in_partition.
    destruct (r1 <? total mod size)%Z, (r2 <? total mod size)%Z; lia.
Qed.

Lemma get_num_particles_in_partition_even_witness :
  Initializer.partition_counts 3 10 = [4; 3; 3]%Z /\
  zsum (Initializer.partition_counts 3 10) = 10%Z.
Proof.
  split; [reflexivity|].
  apply (get_num_particles_in_partition_even 3 10); lia.
Defined.

(** * Further properties of the container *)

(** ** Dicts *)

Lemma setitem_fresh {A : Type} (d : list (string * A)) (k : string) (v : A) :
  ~ In k (map fst d) -> PyDictOps.setitem d k v = d ++ [(k, v)].
Proof.
  induction d as [|[k' v'] d IH]; simpl; intros Hk; [reflexivity|].
  destruct (String.eqb_spec k' k) as [->|Hne].
  - exfalso. apply Hk. left; reflexivity.
  - rewrite IH; [reflexivity|]. intros Hin. apply Hk. right; assumption.
Qed.

Lemma of_pairs_acc {A : Type} (l acc : list (string * A)) :
  NoDup (map fst (acc ++ l)) ->
  fold_left (fun d kv => PyDictOps.setitem d (fst kv) (snd kv)) l acc
  = acc ++ l.
Proof.
  revert acc; induction l as [|[k v] l IH]; intros acc Hnd; simpl.
  - rewrite app_nil_r. reflexivity.
  - rewrite setitem_fresh.
    + rewrite IH; rewrite <- app_assoc; [reflexivity | assumption].
    + rewrite map_app in Hnd. simpl in Hnd.
      apply NoDup_remove_2 in Hnd. intros Hin. apply Hnd.
      apply in_or_app. left; assumption.
Qed.

Lemma of_pairs_nodup {A : Type} (l : list (string * A)) :
  NoDup (map fst l) -> PyDictOps.of_pairs l = l.
Proof. intros H. apply (of_pairs_acc l []). assumption. Qed.

Lemma getitem_nth {A : Type} (d : list (string * A)) (j : nat)
    (k : string) (v : A) :
  NoDup (map fst d) -> nth_error d j = Some (k, v) ->
  PyDictOps.getitem d k = Some v.
Proof.
  revert j; induction d as [|[k' v'] d IH]; intros j Hnd Hj.
  - destruct j; discriminate Hj.
  - simpl in Hnd. apply NoDup_cons_iff in Hnd as [Hfresh Hnd]. simpl.
    destruct j as [|j]; simpl in Hj.
    + injection Hj as -> ->. rewrite String.eqb_refl. reflexivity.
    + destruct (String.eqb_spec k' k) as [->|Hne].
      * exfalso. apply Hfresh. apply nth_error_In in Hj.
        apply (in_map fst) in Hj. exact Hj.
      * apply (IH j); assumption.
Qed.

Lemma combine_fst_snd {A B : Type} (l : list (A * B)) :
  combine (map fst l) (map snd l) = l.
Proof.
  induction l as [|[a b] l IH]; simpl; [reflexivity|]. rewrite IH. reflexivity.
Qed.

Lemma transpose_involutive (M : Np.mat) (n c : nat) :
  has_shape M n c -> (0 < n)%nat -> (0 < c)%nat ->
  Np.transpose (Np.transpose M) = M.
Proof.
  intros H Hn Hc.
  pose proof (transpose_has_shape M n c H Hn) as HT.
  apply (mat_ext _ _ n c); [apply (transpose_has_shape _ c n HT Hc) | exact H |].
  intros j k Hj Hk.
  rewrite (get_transpose (Np.transpose M) c n j k HT Hc Hj).
  apply (get_transpose M n c k j H Hn Hk).
Qed.

(** X1.  The [param_dict] of a population built from a dict gives the
    dict back: the same names in the same order, each with its array. *)
Theorem param_dict_round_trip
    (items : list (string * list R)) (ll lw : Np.vec) (p : Particles.t) :
  NoDup (map fst items) ->
  Particles.init (PyDict items) ll lw = inr p ->
  Particles.param_dict p = items.
Proof.
  intros Hnd H. pose proof (init_well_formed _ _ _ _ H) as W.
  pose proof (wf_num_pos p W) as HN.
  apply init_inv in H as (items' & m & Hi & Hne & Hlen & _ & _ & _ & Hp).
  injection Hi as <-. subst p. simpl in HN.
  unfold Particles.param_dict. simpl.
  rewrite (transpose_involutive (map snd items) (length items)
             (Np.shape1 (map snd items))).
  - rewrite combine_fst_snd. apply of_pairs_nodup. assumption.
  - split; [apply length_map | assumption].
  - destruct items; [contradiction Hne; reflexivity | simpl; lia].
  - assumption.
Qed.

Lemma param_dict_round_trip_witness :
  exists p, Particles.init two_params [0; 0] [0; 0] = inr p /\
            Particles.param_dict p = [("a"%string, [1; 2])].
Proof.
  destruct (two_params_accepted [0; 0] [0; 0] eq_refl eq_refl) as [p Hp].
  exists p. split; [exact Hp|].
  apply (param_dict_round_trip [("a"%string, [1; 2])] [0; 0] [0; 0] p);
    [|exact Hp].
  constructor; [intros [] | constructor].
Defined.

(** ** Packaged outputs *)

Lemma map_fst_combine_same {A B : Type} (l : list A) (l' : list B) :
  length l = length l' -> map fst (combine l l') = l.
Proof.
  revert l'; induction l as [|a l IH]; intros [|b l'] H; simpl in *;
    try discriminate; [reflexivity|].
  f_equal. apply IH. lia.
Qed.

Lemma nth_error_combine_R (l : list string) (l' : list R) (j : nat)
    (k : string) :
  length l = length l' -> nth_error l j = Some k ->
  nth_error (combine l l') j = Some (k, nth j l' 0).
Proof.
  revert l l'; induction j as [|j IH]; intros [|a l] [|b l'] Hlen Hj;
    simpl in *; try discriminate.
  - injection Hj as ->. reflexivity.
  - apply IH; [lia | assumption].
Qed.

Lemma packaged_by_name (func : Particles.t -> Np.vec) (p : Particles.t) :
  NoDup (Particles.param_names p) ->
  length (func p) = length (Particles.param_names p) ->
  exists d,
    Particles.package_for_user_wrapper func p None
      = inr (Particles.Packaged d) /\
    map fst d = Particles.param_names p /\
    forall j name, nth_error (Particles.param_names p) j = Some name ->
      PyDictOps.getitem d name = Some (nth j (func p) 0).
Proof.
  intros Hnd Hlen.
  exists (combine (Particles.param_names p) (func p)).
  assert (Hfst : map fst (combine (Particles.param_names p) (func p))
                 = Particles.param_names p)
    by (apply map_fst_combine_same; symmetry; assumption).
  split; [|split].
  - unfold Particles.package_for_user_wrapper. cbv zeta.
    rewrite of_pairs_nodup; [reflexivity|]. rewrite Hfst. assumption.
  - assumption.
  - intros j name Hj. apply (getitem_nth _ j).
    + rewrite Hfst. assumption.
    + apply nth_error_combine_R; [symmetry|]; assumption.
Qed.

(** X2.  Called without [package], [compute_mean], [compute_variance]
    and [compute_std_dev] return a dict whose keys are the parameter names
    of the population, all of them and in order, and whose value under the
    name at position [j] is entry [j] of the array that [package=False]
    returns. *)
Theorem packaged_outputs_by_name
    (items : list (string * list R)) (ll lw : Np.vec) (p : Particles.t)
    (func : Particles.t -> Np.vec) :
  NoDup (map fst items) ->
  Particles.init (PyDict items) ll lw = inr p ->
  func = Particles.compute_mean \/ func = Particles.compute_variance \/
    func = Particles.compute_std_dev ->
  Particles.package_for_user_wrapper func p (Some false)
    = inr (Particles.Unpackaged (func p)) /\
  exists d,
    Particles.package_for_user_wrapper func p None
      = inr (Particles.Packaged d) /\
    map fst d = map fst items /\
    forall j name, nth_error (map fst items) j = Some name ->
      PyDictOps.getitem d name = Some (nth j (func p) 0).
Proof.
  intros Hnd H Hf. pose proof (init_well_formed _ _ _ _ H) as W.
  assert (Hnames : Particles.param_names p = map fst items).
  { apply init_inv in H as (items' & m & Hi & _ & _ & _ & _ & _ & ->).
    injection Hi as <-. reflexivity. }
  split; [reflexivity|].
  rewrite <- Hnames. apply packaged_by_name.
  - rewrite Hnames. assumption.
  - destruct Hf as [->|[->| ->]].
    + apply compute_mean_length; assumption.
    + apply compute_variance_length; assumption.
    + unfold Particles.compute_std_dev. rewrite length_map.
      apply compute_variance_length; assumption.
Qed.

Lemma packaged_outputs_by_name_witness :
  exists p d,
    Particles.init two_params [0; 0] [0; 0] = inr p /\
    Particles.package_for_user_wrapper Particles.compute_mean p None
      = inr (Particles.Packaged d) /\
    map fst d = ["a"%string].
Proof.
  destruct (two_params_accepted [0; 0] [0; 0] eq_refl eq_refl) as [p Hp].
  assert (Hnd : NoDup (map fst [("a"%string, [1; 2])]))
    by (constructor; [intros [] | constructor]).
  destruct (packaged_outputs_by_name _ _ _ p Particles.compute_mean Hnd Hp
              (or_introl eq_refl)) as (_ & d & Hd & Hk & _).
  exists p, d. split; [exact Hp|]. split; [exact Hd | exact Hk].
Defined.

(** ** The stored weights *)

Lemma nth_map_in {A B : Type} (f : A -> B) (l : list A) (i : nat)
    (d : A) (d' : B) :
  (i < length l)%nat -> nth i (map f l) d' = f (nth i l d).
Proof.
  intros H. rewrite (nth_indep _ d' (f d)) by (rewrite length_map; assumption).
  apply map_nth.
Qed.

Lemma in_le_sum (l : list R) (x : R) :
  (forall y, In y l -> 0 <= y) -> In x l -> x <= Np.sum l.
Proof.
  induction l as [|a l IH]; intros Hpos Hin; simpl in *; [contradiction|].
  assert (Ha : 0 <= a) by (apply Hpos; left; reflexivity).
  assert (Hl : forall y, In y l -> 0 <= y)
    by (intros y Hy; apply Hpos; right; assumption).
  pose proof (sum_nonneg l Hl).
  destruct Hin as [->|Hin]; [lra|]. specialize (IH Hl Hin). lra.
Qed.

Lemma sum_exp_shift (l : list R) (m : R) :
  Np.sum (map (fun x => exp (x - m)) l) = exp (- m) * Np.sum (map exp l).
Proof.
  induction l as [|a l IH]; simpl; [lra|].
  rewrite IH. unfold Rminus. rewrite exp_plus. lra.
Qed.

(** X3.  In a constructed population every weight lies in (0, 1] and
    every stored log-weight is at most 0; the ratio of two weights is the
    exponential of the difference of their raw log-weights, so a particle
    with the larger raw log-weight has the larger weight. *)
Theorem weights_relative
    (params : pyobj) (ll lw : Np.vec) (p : Particles.t) (i j : nat) :
  Particles.init params ll lw = inr p ->
  (i < length lw)%nat -> (j < length lw)%nat ->
  0 < nth i (Particles.weights p) 0 <= 1 /\
  nth i (Particles.log_weights p) 0 <= 0 /\
  nth i (Particles.weights p) 0 / nth j (Particles.weights p) 0
    = exp (nth i lw 0 - nth j lw 0) /\
  (nth i lw 0 <= nth j lw 0 ->
   nth i (Particles.weights p) 0 <= nth j (Particles.weights p) 0).
Proof.
  intros H Hi Hj. pose proof (init_well_formed _ _ _ _ H) as W.
  apply init_inv in H as (items & m & _ & _ & _ & _ & Hlw & Hm & Hp).
  assert (Hlen : length (Particles.log_weights p) = length lw).
  { rewrite Hp. simpl. unfold log_weights_closed_form.
    apply length_map. }
  assert (Hwlen : length (Particles.weights p) = length lw).
  { rewrite (wf_weights_exp p W), length_map. assumption. }
  assert (Hpos : forall k, (k < length lw)%nat ->
            0 < nth k (Particles.weights p) 0 <= 1).
  { intros k Hk.
    assert (Hin : In (nth k (Particles.weights p) 0) (Particles.weights p))
      by (apply nth_In; lia).
    split; [apply (wf_weights_pos p W); assumption|].
    rewrite <- (wf_weights_sum p W). apply in_le_sum; [|assumption].
    intros y Hy. left. apply (wf_weights_pos p W). assumption. }
  assert (Hw : forall k, (k < length lw)%nat ->
            nth k (Particles.weights p) 0
            = exp (nth k (Particles.log_weights p) 0)).
  { intros k Hk. rewrite (wf_weights_exp p W).
    apply nth_map_in. lia. }
  assert (Hl : forall k, (k < length lw)%nat ->
            nth k (Particles.log_weights p) 0
            = nth k lw 0 - m
              - ln (Np.sum (map (fun x => exp (x - m)) lw))).
  { intros k Hk. rewrite Hp. simpl. unfold log_weights_closed_form.
    apply (nth_map_in (fun x => x - m - ln _)). assumption. }
  split; [apply Hpos; assumption|]. split; [|split].
  - destruct (Hpos i Hi) as [_ Hle]. rewrite (Hw i Hi) in Hle.
    apply Rnot_lt_le. intros Hgt. apply exp_increasing in Hgt.
    rewrite exp_0 in Hgt. lra.
  - rewrite (Hw i Hi), (Hw j Hj), (Hl i Hi), (Hl j Hj).
    unfold Rdiv. rewrite <- exp_Ropp, <- exp_plus. f_equal. lra.
  - intros Hle. rewrite (Hw i Hi), (Hw j Hj), (Hl i Hi), (Hl j Hj).
    destruct Hle as [Hlt|Heq].
    + left. apply exp_increasing. lra.
    + right. f_equal. lra.
Qed.

Lemma weights_relative_witness :
  exists p, Particles.init two_params [0; 0] [3; 5] = inr p /\
            nth 0 (Particles.weights p) 0 / nth 1 (Particles.weights p) 0
            = exp (3 - 5).
Proof.
  destruct (two_params_accepted [0; 0] [3; 5] eq_refl eq_refl) as [p Hp].
  exists p. split; [exact Hp|].
  assert (H0 : (0 < length [3; 5])%nat) by (simpl; lia).
  assert (H1 : (1 < length [3; 5])%nat) by (simpl; lia).
  destruct (weights_relative _ _ _ p 0%nat 1%nat Hp H0 H1) as (_ & _ & Hr & _).
  exact Hr.
Defined.

(** X4.  Normalization is idempotent: building a population again from
    the stored log-weights of a population gives that population. *)
Theorem normalization_idempotent
    (params : pyobj) (ll lw : Np.vec) (p : Particles.t) :
  Particles.init params ll lw = inr p ->
  Particles.init params ll (Particles.log_weights p) = inr p.
Proof.
  intros H. pose proof (init_well_formed _ _ _ _ H) as W.
  pose proof (init_inv _ _ _ _ H)
    as (items & m & Hi & Hne & Hlen & Hll & Hlw & Hm & Hp).
  set (lw' := Particles.log_weights p).
  assert (Hlen' : length lw' = Np.shape1 (map snd items)).
  { unfold lw'. rewrite Hp. simpl. unfold log_weights_closed_form.
    rewrite length_map. assumption. }
  assert (Hne' : lw' <> []).
  { intros E. rewrite E in Hlen'. simpl in Hlen'. rewrite <- Hlen' in Hlw.
    destruct lw; [discriminate Hm | discriminate Hlw]. }
  destruct (py_max_some lw' Hne') as [m' Hm'].
  assert (Hsum : Np.sum (map exp lw') = 1).
  { unfold lw'. rewrite <- (wf_weights_exp p W). apply (wf_weights_sum p W). }
  assert (Hfix : log_weights_closed_form lw' m' = lw').
  { unfold log_weights_closed_form. rewrite sum_exp_shift, Hsum, Rmult_1_r.
    rewrite ln_exp. rewrite <- (map_id lw') at 2.
    apply map_ext. intros x. lra. }
  subst params. unfold Particles.init, Particles._set_params. simpl.
  assert (Hv : Np.vstack (map snd items) = inr (map snd items)).
  { unfold Np.vstack. destruct (map snd items) as [|a rest] eqn:E;
      [congruence|].
    replace (forallb (fun b => Nat.eqb (length b) (length a)) rest)
      with true; [reflexivity|].
    symmetry. apply forallb_forall. intros b Hb. apply Nat.eqb_eq.
    apply (Hlen b). right; assumption. }
  rewrite Hv. simpl.
  unfold Particles._set_log_likes, Particles._set_and_norm_log_weights.
  assert (Hs0 : Np.shape0 (Np.transpose (map snd items))
                = Np.shape1 (map snd items)).
  { unfold Np.shape0, Np.transpose. rewrite length_map, length_seq.
    reflexivity. }
  rewrite Hs0, Hll, Hlen', Nat.eqb_refl. simpl.
  rewrite (normalize_closed_form lw' m' Hm'), Hfix. simpl. unfold ret.
  f_equal. unfold lw'. rewrite Hp. reflexivity.
Qed.

Lemma normalization_idempotent_witness :
  exists p, Particles.init two_params [0; 0] [3; 5] = inr p /\
            Particles.init two_params [0; 0] (Particles.log_weights p)
            = inr p.
Proof.
  destruct (two_params_accepted [0; 0] [3; 5] eq_refl eq_refl) as [p Hp].
  exists p. split; [exact Hp | exact (normalization_idempotent _ _ _ p Hp)].
Defined.

(** ** When the construction succeeds *)

Lemma init_dict_error (items : list (string * list R)) (ll lw : Np.vec)
    (e : pyerror) :
  Particles.init (PyDict items) ll lw = inl e -> e = ValueError.
Proof.
  unfold Particles.init, Particles._set_params. simpl.
  destruct (Np.vstack (map snd items)) as [e'|stacked] eqn:Hv; simpl.
  - intros H. injection H as <-.
    unfold Np.vstack in Hv. destruct (map snd items) as [|a rest].
    + injection Hv as <-. reflexivity.
    + destruct (forallb (fun b => Nat.eqb (length b) (length a)) rest);
        [discriminate Hv | injection Hv as <-; reflexivity].
  - unfold Particles._set_log_likes, Particles._set_and_norm_log_weights.
    destruct (Nat.eqb (length ll) _); simpl;
      [|intros H; injection H as <-; reflexivity].
    destruct (Nat.eqb (length lw) _); simpl;
      [|intros H; injection H as <-; reflexivity].
    unfold Particles._normalize_log_weights.
    destruct lw as [|x lw]; simpl.
    + intros H. injection H as <-. reflexivity.
    + discriminate.
Qed.

(** X5.  With a dict as [params] the construction succeeds exactly when
    the dict is not empty, its arrays share one length N > 0, and the
    log-likelihoods and raw log-weights have length N; in every other case
    (empty dict, arrays of different lengths, no particle, another length)
    the exception is [ValueError]. *)
Theorem construction_succeeds_iff
    (items : list (string * list R)) (ll lw : Np.vec) :
  ((exists p, Particles.init (PyDict items) ll lw = inr p) <->
   (exists N, (0 < N)%nat /\ items <> [] /\
      (forall a, In a (map snd items) -> length a = N) /\
      length ll = N /\ length lw = N)) /\
  (forall e, Particles.init (PyDict items) ll lw = inl e -> e = ValueError).
Proof.
  split; [split|].
  - intros [p H]. pose proof (init_well_formed _ _ _ _ H) as W.
    pose proof (wf_num_pos p W) as HN.
    apply init_inv in H as (items' & m & Hi & Hne & Hlen & Hll & Hlw & _ & Hp).
    injection Hi as <-. subst p. simpl in HN.
    exists (Np.shape1 (map snd items)). repeat split; try assumption.
    intros ->. apply Hne. reflexivity.
  - intros (N & HN & Hne & Hlen & Hll & Hlw).
    assert (Hs : Np.shape1 (map snd items) = N).
    { destruct items as [|[k a] items]; [congruence|]. simpl.
      apply Hlen. left; reflexivity. }
    apply init_accepts.
    + destruct items; [congruence | discriminate].
    + intros a Ha. rewrite Hs. apply Hlen. assumption.
    + congruence.
    + congruence.
    + destruct lw; [simpl in Hlw; lia | discriminate].
  - apply init_dict_error.
Qed.

(** ** Effective sample size: the case of equality *)

Lemma sum_sq_centered (l : list R) (c : R) :
  Np.sum (map (fun x => (x - c) * (x - c)) l)
  = sum_sq l - 2 * c * Np.sum l + INR (length l) * (c * c).
Proof.
  unfold sum_sq. induction l as [|a l IH].
  - simpl. lra.
  - change (length (a :: l)) with (S (length l)). rewrite S_INR.
    simpl map. simpl Np.sum. rewrite IH. lra.
Qed.

Lemma sum_squares_zero (l : list R) (c : R) :
  Np.sum (map (fun x => (x - c) * (x - c)) l) = 0 ->
  forall x, In x l -> x = c.
Proof.
  induction l as [|a l IH]; simpl; intros Hs x Hin; [contradiction|].
  assert (Hl : 0 <= Np.sum (map (fun x => (x - c) * (x - c)) l)).
  { apply sum_nonneg. intros y Hy. apply in_map_iff in Hy as [z [<- _]].
    apply (Rle_0_sqr (z - c)). }
  assert (Ha : 0 <= (a - c) * (a - c)) by apply (Rle_0_sqr (a - c)).
  destruct Hin as [<-|Hin].
  - assert (Hz : (a - c) * (a - c) = 0) by lra.
    apply Rmult_integral in Hz. lra.
  - apply IH; [lra | assumption].
Qed.

(** X6.  The effective sample size of a constructed population of N
    particles reaches N only when every weight is [1/N]. *)
Theorem compute_ess_maximal_only_uniform
    (params : pyobj) (ll lw : Np.vec) (p : Particles.t) :
  Particles.init params ll lw = inr p ->
  Particles.compute_ess p = INR (Particles.num_particles p) ->
  forall w, In w (Particles.weights p) ->
            w = 1 / INR (Particles.num_particles p).
Proof.
  intros H Hess. pose proof (init_well_formed _ _ _ _ H) as W.
  pose proof (well_formed_sum_sq_bounds p W) as [Hlow Hup].
  assert (HN : 0 < INR (Particles.num_particles p)).
  { apply lt_0_INR. apply (wf_num_pos p W). }
  unfold Particles.compute_ess in Hess.
  fold (sum_sq (Particles.weights p)) in Hess.
  set (q := sum_sq (Particles.weights p)) in *.
  set (n := INR (Particles.num_particles p)) in *.
  assert (Hinv : 0 < / n) by (apply Rinv_0_lt_compat; assumption).
  assert (Hq : 0 < q) by lra.
  assert (Hqn : q = 1 / n).
  { apply Rmult_eq_reg_l with n; [|lra].
    rewrite <- Hess. field. lra. }
  apply sum_squares_zero. rewrite sum_sq_centered.
  rewrite (wf_weights_sum p W), (wf_weights_len p W).
  fold q. fold n. rewrite Hqn. field. lra.
Qed.

Lemma compute_ess_maximal_only_uniform_witness :
  exists p, Particles.init two_params [0; 0] [0; 0] = inr p /\
            forall w, In w (Particles.weights p) -> w = 1 / INR 2.
Proof.
  destruct (two_params_accepted [0; 0] [0; 0] eq_refl eq_refl) as [p Hp].
  exists p. split; [exact Hp|].
  destruct (init_inv _ _ _ _ Hp) as (items & m & Hi & _ & _ & _ & _ & Hm & Hq).
  injection Hi as <-.
  assert (HN : Particles.num_particles p = 2%nat) by (rewrite Hq; reflexivity).
  assert (Hw : Particles.weights p = repeat (1 / INR 2) 2).
  { rewrite Hq. simpl Particles.weights.
    apply (uniform_closed_form 0 m 2); [lia | exact Hm]. }
  assert (Hess : Particles.compute_ess p = INR (Particles.num_particles p)).
  { unfold Particles.compute_ess. rewrite Hw, HN.
    fold (sum_sq (repeat (1 / INR 2) 2)). rewrite sum_sq_repeat.
    simpl. field. }
  rewrite <- HN. exact (compute_ess_maximal_only_uniform _ _ _ p Hp Hess).
Defined.

(** ** The weighted mean *)

Lemma init_value_length (items : list (string * list R)) (ll lw : Np.vec)
    (p : Particles.t) (j : nat) :
  Particles.init (PyDict items) ll lw = inr p ->
  (j < length items)%nat ->
  length (nth j (map snd items) []) = Particles.num_particles p /\
  length (Particles.weights p) = Particles.num_particles p.
Proof.
  intros H Hj. pose proof (init_well_formed _ _ _ _ H) as W.
  split; [|apply (wf_weights_len p W)].
  apply init_inv in H as (items' & m & Hi & _ & Hlen & _ & _ & _ & ->).
  injection Hi as <-. simpl. apply Hlen. apply nth_In.
  rewrite length_map. assumption.
Qed.

Lemma weighted_sum_bounds (xs w : list R) (lo hi : R) :
  length xs = length w ->
  (forall x, In x xs -> lo <= x <= hi) ->
  (forall y, In y w -> 0 <= y) ->
  lo * Np.sum w <= Np.sum (Np.map2 Rmult xs w) <= hi * Np.sum w.
Proof.
  revert w; induction xs as [|x xs IH]; intros [|y w] Hlen Hx Hw;
    simpl in *; try discriminate; [lra|].
  assert (Hxb : lo <= x <= hi) by (apply Hx; left; reflexivity).
  assert (Hy : 0 <= y) by (apply Hw; left; reflexivity).
  destruct (IH w) as [H1 H2]; [lia | | |].
  - intros z Hz. apply Hx. right; assumption.
  - intros z Hz. apply Hw. right; assumption.
  - split; nra.
Qed.

Lemma weighted_sum_repeat (xs : list R) (c : R) :
  Np.sum (Np.map2 Rmult xs (repeat c (length xs))) = Np.sum xs * c.
Proof.
  induction xs as [|x xs IH]; simpl; [lra|]. rewrite IH. lra.
Qed.

(** X7.  The weighted mean of a parameter lies between any lower and
    upper bound of its values over the particles. *)
Theorem compute_mean_between_bounds
    (items : list (string * list R)) (ll lw : Np.vec) (p : Particles.t)
    (j : nat) (lo hi : R) :
  Particles.init (PyDict items) ll lw = inr p ->
  (j < length items)%nat ->
  (forall x, In x (nth j (map snd items) []) -> lo <= x <= hi) ->
  lo <= nth j (Particles.compute_mean p) 0 <= hi.
Proof.
  intros H Hj Hb. pose proof (init_well_formed _ _ _ _ H) as W.
  destruct (init_params_column items ll lw p j H Hj) as [Hcol HP].
  destruct (init_value_length items ll lw p j H Hj) as [Hxs Hw].
  rewrite compute_mean_nth by (assumption || lia). rewrite Hcol.
  pose proof (weighted_sum_bounds (nth j (map snd items) [])
                (Particles.weights p) lo hi) as Hs.
  rewrite (wf_weights_sum p W), !Rmult_1_r in Hs. apply Hs.
  - congruence.
  - assumption.
  - intros y Hy. left. apply (wf_weights_pos p W). assumption.
Qed.

Lemma compute_mean_between_bounds_witness :
  exists p, Particles.init two_params [0; 0] [3; 5] = inr p /\
            1 <= nth 0 (Particles.compute_mean p) 0 <= 2.
Proof.
  destruct (two_params_accepted [0; 0] [3; 5] eq_refl eq_refl) as [p Hp].
  exists p. split; [exact Hp|].
  apply (compute_mean_between_bounds [("a"%string, [1; 2])] [0; 0] [3; 5] p
           0%nat 1 2 Hp).
  - simpl. lia.
  - simpl. intros x [<-|[<-|[]]]; lra.
Defined.

(** X8.  When all raw log-weights are equal, the weighted mean of a
    parameter is the arithmetic mean of its values. *)
Theorem compute_mean_equal_weights
    (items : list (string * list R)) (ll lw : Np.vec) (p : Particles.t)
    (j : nat) (c : R) :
  Particles.init (PyDict items) ll lw = inr p ->
  (j < length items)%nat ->
  (forall x, In x lw -> x = c) ->
  nth j (Particles.compute_mean p) 0
  = Np.sum (nth j (map snd items) []) / INR (Particles.num_particles p).
Proof.
  intros H Hj Hc. pose proof (init_well_formed _ _ _ _ H) as W.
  destruct (init_params_column items ll lw p j H Hj) as [Hcol HP].
  destruct (init_value_length items ll lw p j H Hj) as [Hxs Hw].
  rewrite compute_mean_nth by (assumption || lia). rewrite Hcol.
  pose proof (wf_num_pos p W) as HN.
  assert (Hu : Particles.weights p
               = repeat (1 / INR (Particles.num_particles p))
                   (Particles.num_particles p)).
  { apply init_inv in H as (items' & m & _ & _ & _ & _ & Hlw & Hm & Hq).
    apply all_equal_repeat in Hc. rewrite Hc in Hm.
    assert (Hn : length lw = Particles.num_particles p)
      by (rewrite Hq; simpl; assumption).
    rewrite Hn in Hm, Hc.
    rewrite Hq at 1. simpl Particles.weights. rewrite Hc.
    apply (uniform_closed_form c m _ HN Hm). }
  rewrite Hu, <- Hxs, weighted_sum_repeat. unfold Rdiv. lra.
Qed.

Lemma compute_mean_equal_weights_witness :
  exists p, Particles.init two_params [0; 0] [7; 7] = inr p /\
            nth 0 (Particles.compute_mean p) 0
            = Np.sum [1; 2] / INR (Particles.num_particles p).
Proof.
  destruct (two_params_accepted [0; 0] [7; 7] eq_refl eq_refl) as [p Hp].
  exists p. split; [exact Hp|].
  apply (compute_mean_equal_weights [("a"%string, [1; 2])] [0; 0] [7; 7] p
           0%nat 7 Hp).
  - simpl. lia.
  - simpl. intros x [<-|[<-|[]]]; reflexivity.
Defined.

(** ** Variance and the diagonal of the covariance *)






Lemma weighted_squares_two_forms (f : R -> R) (c w : list R) :
  Np.sum (Np.map2 Rmult (map f c) (Np.map2 Rmult (map f c) w))
  = Np.sum (Np.map2 (fun wi x => wi * f x ^ 2) w c).
Proof.
  revert w; induction c as [|x c IH]; intros [|y w];
    cbn [Np.map2 Np.sum fold_right map]; try reflexivity.
  fold (Np.sum (Np.map2 Rmult (map f c) (Np.map2 Rmult (map f c) w))).
  fold (Np.sum (Np.map2 (fun wi x0 => wi * f x0 ^ 2) w c)).
  rewrite IH. ring.
Qed.

(** X10.  Whatever the test of positive definiteness answers, the
    diagonal of the array that [compute_covariance] returns is the array
    that [compute_variance] returns. *)
Theorem compute_covariance_diagonal_is_variance
    (is_positive_definite : Np.mat -> bool)
    (params : pyobj) (ll lw : Np.vec) (p : Particles.t) (j : nat) :
  Particles.init params ll lw = inr p ->
  (j < length (Particles.param_names p))%nat ->
  Np.get (snd (Particles.compute_covariance is_positive_definite p)) j j
  = nth j (Particles.compute_variance p) 0.
Proof.
  intros H Hj. pose proof (init_well_formed _ _ _ _ H) as W.
  pose proof (weighted_covariance_has_shape p W) as Hsh.
  pose proof (wf_names p W) as HP.
  assert (Hest : Np.get (Particles.weighted_covariance p) j j
                 = nth j (Particles.compute_variance p) 0).
  { rewrite (weighted_covariance_entry p j j W Hj Hj). cbv zeta.
    rewrite compute_variance_nth by assumption.
    rewrite (column_sub_mat_row _ _ _ _ j
               (well_formed_params_shape p W) (compute_mean_length p W) Hj).
    rewrite (weighted_squares_two_forms
               (fun x => x - nth j (Particles.compute_mean p) 0)).
    unfold Rdiv. lra. }
  unfold Particles.compute_covariance.
  destruct (is_positive_definite (Particles.weighted_covariance p)); simpl.
  - assumption.
  - fold (repaired (Particles.weighted_covariance p)).
    rewrite (get_repaired _ _ j j Hsh HP Hj Hj), Nat.eqb_refl. assumption.
Qed.

Lemma compute_covariance_diagonal_is_variance_witness :
  exists p, Particles.init two_params [0; 0] [3; 5] = inr p /\
    Np.get (snd (Particles.compute_covariance (fun _ => false) p)) 0 0
    = nth 0 (Particles.compute_variance p) 0.
Proof.
  destruct (two_params_accepted [0; 0] [3; 5] eq_refl eq_refl) as [p Hp].
  exists p. split; [exact Hp|].
  apply (compute_covariance_diagonal_is_variance _ _ _ _ p 0%nat Hp).
  destruct (init_inv _ _ _ _ Hp) as (items & m & Hi & _ & _ & _ & _ & _ & Hq).
  injection Hi as <-. rewrite Hq. simpl. lia.
Defined.

(** * Further properties of the initializer *)

(** X11.  [init_particles_from_prior] asks the kernel for the sample and
    then for its log-likelihoods, and for nothing else, whether it returns
    or raises.  With [num_particles = 0] it raises [ZeroDivisionError]
    after both calls; with a negative [num_particles] it never returns a
    population; and when the kernel's sample is a dict holding an array
    whose length is not [num_particles > 0], it raises [ValueError]. *)
Theorem init_particles_from_prior_calls_and_errors
    (self : Initializer.t) (n : Z) (log : list Initializer.call) :
  let k := Initializer.mcmc_kernel self in
  let params := Initializer.sample_from_prior k log n in
  let out := Initializer.init_particles_from_prior self n log in
  fst out = log ++ [Initializer.SampleFromPrior n;
                    Initializer.GetLogLikelihoods params] /\
  (n = 0%Z -> snd out = inl ZeroDivisionError) /\
  ((n < 0)%Z -> exists e, snd out = inl e) /\
  (forall items a,
     (0 < n)%Z -> params = PyDict items -> In a (map snd items) ->
     length a <> Z.to_nat n -> snd out = inl ValueError).
Proof.
  cbv zeta.
  unfold Initializer.init_particles_from_prior, Initializer.mbind,
    Initializer.do_sample_from_prior, Initializer.do_get_log_likelihoods,
    Initializer.lift, Initializer.prior_log_weights, Initializer.py_one_over,
    Initializer.py_list_repeat.
  simpl.
  set (k := Initializer.mcmc_kernel self).
  set (params := Initializer.sample_from_prior k log n).
  set (lls := Initializer.get_log_likelihoods k _ params).
  destruct (Z.eqb_spec n 0) as [Hz|Hz]; simpl.
  - split; [rewrite <- app_assoc; reflexivity|].
    split; [reflexivity|]. split; [lia|]. intros; lia.
  - split; [rewrite <- app_assoc; reflexivity|].
    split; [contradiction|]. split.
    + intros Hneg.
      destruct (Particles.init params lls (repeat (ln (1 / IZR n)) (Z.to_nat n)))
        as [e|p] eqn:Hp; [exists e; reflexivity|].
      exfalso. pose proof (init_well_formed _ _ _ _ Hp) as W.
      pose proof (wf_num_pos p W) as Hpos.
      apply init_inv in Hp as (items & m & _ & _ & _ & _ & Hlw & _ & Hq).
      rewrite Hq in Hpos. simpl in Hpos. rewrite <- Hlw, repeat_length in Hpos.
      lia.
    + intros items a Hn Hi Ha Hlen. rewrite Hi.
      destruct (Particles.init (PyDict items) lls
                  (repeat (ln (1 / IZR n)) (Z.to_nat n)))
        as [e|p] eqn:Hp.
      * simpl. f_equal. apply (init_dict_error _ _ _ _ Hp).
      * exfalso.
        apply init_inv in Hp as (items' & m & Hi' & _ & Hl & _ & Hlw & _ & _).
        injection Hi' as <-. apply Hlen.
        rewrite (Hl a Ha), <- Hlw. apply repeat_length.
Qed.


(** ** Proposal densities known up to a constant *)

Lemma init_add_constant (params : pyobj) (ll w : Np.vec) (c : R) :
  Particles.init params ll (map (fun x => x + c) w)
  = Particles.init params ll w.
Proof.
  unfold Particles.init, Particles._set_and_norm_log_weights.
  rewrite length_map.
  replace (Particles._normalize_log_weights (map (fun x => x + c) w))
    with (Particles._normalize_log_weights w); [reflexivity|].
  destruct (py_max w) as [e|m] eqn:Hm.
  - destruct w; [reflexivity | discriminate Hm].
  - rewrite (normalize_closed_form w m Hm).
    rewrite (normalize_closed_form _ (m + c) (py_max_shift w c m Hm)).
    f_equal. unfold log_weights_closed_form. rewrite !map_map.
    replace (Np.sum (map (fun x => exp (x + c - (m + c))) w))
      with (Np.sum (map (fun x => exp (x - m)) w)).
    + apply map_ext. intros x. lra.
    + f_equal. apply map_ext. intros x. f_equal. lra.
Qed.

Lemma sub_col_col_shift (a b : Np.vec) (s : R) :
  Initializer.sub_col_col a (map (fun l => s + l) b)
  = match Initializer.sub_col_col a b with
    | inl e => inl e
    | inr r => inr (map (fun x => x + - s) r)
    end.
Proof.
  unfold Initializer.sub_col_col. rewrite length_map.
  destruct (Nat.eqb (length a) (length b)) eqn:E.
  - unfold ret. f_equal. rewrite map2_map_r, map_map2.
    apply map2_ext_in. intros x y _ _. lra.
  - destruct a as [|x [|x' a']]; destruct b as [|y [|y' b']];
      simpl in *; try discriminate E; unfold ret, raise;
      try reflexivity; f_equal; try (f_equal; lra).
    + f_equal; [lra|]. f_equal; [lra|]. rewrite !map_map.
      apply map_ext. intros z. lra.
    + f_equal; [lra|]. f_equal; [lra|]. rewrite !map_map.
      apply map_ext. intros z. lra.
Qed.

Lemma sample_log_weights_scale (lp pd : Np.vec) (c : R) :
  0 < c -> (forall d, In d pd -> 0 < d) ->
  Initializer.sample_log_weights lp (map (fun d => c * d) pd)
  = match Initializer.sample_log_weights lp pd with
    | inl e => inl e
    | inr r => inr (map (fun x => x + - ln c) r)
    end.
Proof.
  intros Hc Hpd. unfold Initializer.sample_log_weights.
  rewrite <- sub_col_col_shift. f_equal. rewrite !map_map.
  apply map_ext_in. intros d Hd. apply ln_mult; [assumption | apply Hpd, Hd].
Qed.

(** X13.  Multiplying every proposal density by one positive constant
    changes nothing in what [init_particles_from_samples] returns or
    raises: the densities need only be known up to a constant factor. *)
Theorem init_particles_from_samples_density_scale
    (self : Initializer.t) (samples : pyobj) (proposal_pdensities : Np.vec)
    (log : list Initializer.call) (c : R) :
  0 < c ->
  (forall d, In d proposal_pdensities -> 0 < d) ->
  Initializer.init_particles_from_samples self samples
    (map (fun d => c * d) proposal_pdensities) log
  = Initializer.init_particles_from_samples self samples
      proposal_pdensities log.
Proof.
  intros Hc Hpd.
  unfold Initializer.init_particles_from_samples, Initializer.mbind,
    Initializer.do_get_log_likelihoods, Initializer.do_get_log_priors,
    Initializer.lift.
  unfold ret. cbn beta iota.
  rewrite (sample_log_weights_scale _ _ c Hc Hpd).
  destruct (Initializer.sample_log_weights _ proposal_pdensities) as [e|r];
    [reflexivity|].
  rewrite init_add_constant. reflexivity.
Qed.

Lemma init_particles_from_samples_density_scale_witness :
  Initializer.init_particles_from_samples
    (Initializer.mk (constant_kernel [0; 0] [3; 4])) two_params
    (map (fun d => 10 * d) [1; 2]) []
  = Initializer.init_particles_from_samples
      (Initializer.mk (constant_kernel [0; 0] [3; 4])) two_params [1; 2] [].
Proof.
  apply init_particles_from_samples_density_scale.
  - lra.
  - simpl. intros d [<-|[<-|[]]]; lra.
Defined.

(** X14.  When every proposal density is the exponential of the
    kernel's log-prior at that sample (the samples were drawn from the
    prior), the population that [init_particles_from_samples] returns has
    all its weights equal to [1/N] and an effective sample size of N. *)
Theorem init_particles_from_samples_prior_proposal
    (self : Initializer.t) (samples : pyobj) (proposal_pdensities : Np.vec)
    (log log' : list Initializer.call) (p : Particles.t) :
  proposal_pdensities
    = map exp (Initializer.get_log_priors (Initializer.mcmc_kernel self)
                 (log ++ [Initializer.GetLogLikelihoods samples]) samples) ->
  Initializer.init_particles_from_samples self samples
    proposal_pdensities log = (log', inr p) ->
  Particles.weights p
    = repeat (1 / INR (Particles.num_particles p))
        (Particles.num_particles p) /\
  Particles.compute_ess p = INR (Particles.num_particles p).
Proof.
  intros Hpd.
  unfold Initializer.init_particles_from_samples, Initializer.mbind,
    Initializer.do_get_log_likelihoods, Initializer.do_get_log_priors,
    Initializer.lift.
  unfold ret. cbn beta iota.
  set (lps := Initializer.get_log_priors _ _ samples) in *.
  assert (Hraw : Initializer.sample_log_weights lps proposal_pdensities
                 = inr (repeat 0 (length lps))).
  { unfold Initializer.sample_log_weights, Initializer.sub_col_col.
    rewrite Hpd, !length_map, Nat.eqb_refl. unfold ret. f_equal.
    rewrite map_map. clear. induction lps as [|x l IH]; simpl; [reflexivity|].
    rewrite IH, ln_exp. f_equal. lra. }
  rewrite Hraw. intros H. injection H as _ Hp.
  pose proof (init_well_formed _ _ _ _ Hp) as W.
  pose proof (wf_num_pos p W) as HN.
  pose proof (init_inv _ _ _ _ Hp)
    as (items & m & _ & _ & _ & _ & Hlw & Hm & Hq).
  rewrite repeat_length in Hlw.
  assert (Hn : length lps = Particles.num_particles p)
    by (rewrite Hq; simpl; assumption).
  rewrite Hn in Hm.
  assert (Hw : Particles.weights p
               = repeat (1 / INR (Particles.num_particles p))
                   (Particles.num_particles p)).
  { rewrite Hq at 1. simpl Particles.weights. rewrite Hn.
    apply (uniform_closed_form 0 m _ HN Hm). }
  split; [assumption|].
  unfold Particles.compute_ess. rewrite Hw.
  fold (sum_sq (repeat (1 / INR (Particles.num_particles p))
                  (Particles.num_particles p))).
  rewrite sum_sq_repeat. field. apply Rgt_not_eq. apply lt_0_INR. assumption.
Qed.

Lemma init_particles_from_samples_prior_proposal_witness :
  exists log' p,
    Initializer.init_particles_from_samples
      (Initializer.mk (constant_kernel [0; 0] [3; 4])) two_params
      (map exp [3; 4]) [] = (log', inr p) /\
    Particles.compute_ess p = INR (Particles.num_particles p).
Proof.
  destruct (two_params_accepted [0; 0] [0; 0] eq_refl eq_refl) as [p Hp].
  assert (Hrun : Initializer.init_particles_from_samples
                   (Initializer.mk (constant_kernel [0; 0] [3; 4])) two_params
                   (map exp [3; 4]) []
                 = ([Initializer.GetLogLikelihoods two_params;
                     Initializer.GetLogPriors two_params], inr p)).
  { unfold Initializer.init_particles_from_samples, Initializer.mbind,
      Initializer.do_get_log_likelihoods, Initializer.do_get_log_priors,
      Initializer.lift, Initializer.sample_log_weights,
      Initializer.sub_col_col.
    simpl. rewrite !ln_exp.
    replace (3 - 3) with 0 by lra. replace (4 - 4) with 0 by lra.
    rewrite Hp. reflexivity. }
  exists [Initializer.GetLogLikelihoods two_params;
          Initializer.GetLogPriors two_params], p.
  split; [exact Hrun|].
  exact (proj2 (init_particles_from_samples_prior_proposal
                  (Initializer.mk (constant_kernel [0; 0] [3; 4])) two_params
                  (map exp [3; 4]) [] _ p eq_refl Hrun)).
Defined.



(** ** Change of units of a parameter *)

Lemma weighted_sum_affine (xs w : list R) (a c : R) :
  length xs = length w ->
  Np.sum (Np.map2 Rmult (map (fun x => a * x + c) xs) w)
  = a * Np.sum (Np.map2 Rmult xs w) + c * Np.sum w.
Proof.
  revert w; induction xs as [|x xs IH]; intros [|y w] Hlen;
    simpl in *; try discriminate; [lra|].
  rewrite IH by lia. lra.
Qed.

Lemma weighted_squares_affine (w xs : list R) (a c mu : R) :
  Np.sum (Np.map2 (fun wi x => wi * (x - (a * mu + c)) ^ 2) w
            (map (fun x => a * x + c) xs))
  = a * a * Np.sum (Np.map2 (fun wi x => wi * (x - mu) ^ 2) w xs).
Proof.
  revert xs; induction w as [|y w IH]; intros [|x xs];
    cbn [Np.map2 Np.sum fold_right map]; try lra.
  fold (Np.sum (Np.map2 (fun wi x0 => wi * (x0 - (a * mu + c)) ^ 2) w
                  (map (fun x0 => a * x0 + c) xs))).
  fold (Np.sum (Np.map2 (fun wi x0 => wi * (x0 - mu) ^ 2) w xs)).
  rewrite IH. ring.
Qed.

(** X16.  Two populations built with the same raw log-weights, the
    second with the values [a * x + c] for a parameter where the first has
    [x]: the mean of that parameter in the second is [a * mean + c] and its
    variance is [a^2] times the variance in the first. *)
Theorem mean_variance_affine
    (items items' : list (string * list R)) (ll ll' lw : Np.vec)
    (p p' : Particles.t) (j : nat) (a c : R) :
  Particles.init (PyDict items) ll lw = inr p ->
  Particles.init (PyDict items') ll' lw = inr p' ->
  (j < length items)%nat -> (j < length items')%nat ->
  nth j (map snd items') []
    = map (fun x => a * x + c) (nth j (map snd items) []) ->
  nth j (Particles.compute_mean p') 0
    = a * nth j (Particles.compute_mean p) 0 + c /\
  nth j (Particles.compute_variance p') 0
    = a * a * nth j (Particles.compute_variance p) 0.
Proof.
  intros H H' Hj Hj' Hx.
  pose proof (init_well_formed _ _ _ _ H) as W.
  pose proof (init_well_formed _ _ _ _ H') as W'.
  destruct (init_params_column items ll lw p j H Hj) as [Hcol HP].
  destruct (init_params_column items' ll' lw p' j H' Hj') as [Hcol' HP'].
  destruct (init_value_length items ll lw p j H Hj) as [Hxs Hw].
  assert (Hww : Particles.weights p' = Particles.weights p).
  { destruct (init_inv _ _ _ _ H) as (i1 & m & _ & _ & _ & _ & _ & Hm & Hq).
    destruct (init_inv _ _ _ _ H') as (i2 & m' & _ & _ & _ & _ & _ & Hm' & Hq').
    rewrite Hm in Hm'. injection Hm' as <-. rewrite Hq, Hq'. reflexivity. }
  assert (Hmean : nth j (Particles.compute_mean p') 0
                  = a * nth j (Particles.compute_mean p) 0 + c).
  { rewrite !compute_mean_nth by (assumption || lia).
    rewrite Hcol, Hcol', Hx, Hww, weighted_sum_affine by congruence.
    rewrite (wf_weights_sum p W). lra. }
  split; [assumption|].
  rewrite !compute_variance_nth by (assumption || lia).
  rewrite Hmean, Hcol, Hcol', Hx, Hww, weighted_squares_affine.
  unfold Rdiv. ring.
Qed.

Lemma mean_variance_affine_witness :
  exists p p',
    Particles.init two_params [0; 0] [3; 5] = inr p /\
    Particles.init (PyDict [("a"%string, [12; 14])]) [0; 0] [3; 5] = inr p' /\
    nth 0 (Particles.compute_mean p') 0
      = 2 * nth 0 (Particles.compute_mean p) 0 + 10.
Proof.
  destruct (two_params_accepted [0; 0] [3; 5] eq_refl eq_refl) as [p Hp].
  destruct (init_accepts [("a"%string, [12; 14])] [0; 0] [3; 5])
    as [p' Hp']; simpl; try reflexivity; try discriminate.
  { intros x [<-|[]]. reflexivity. }
  exists p, p'. split; [exact Hp|]. split; [exact Hp'|].
  apply (mean_variance_affine [("a"%string, [1; 2])]
           [("a"%string, [12; 14])] [0; 0] [0; 0] [3; 5] p p' 0%nat 2 10
           Hp Hp').
  - simpl. lia.
  - simpl. lia.
  - simpl. f_equal; [lra|]. f_equal. lra.
Defined.

(** ** Entries of the covariance *)

Lemma sum_three_index (n : nat) (a b w : list R) :
  length a = n -> length b = n -> length w = n ->
  Np.sum (Np.map2 Rmult a (Np.map2 Rmult b w))
  = Np.sum (map (fun i => nth i w 0 * nth i a 0 * nth i b 0) (seq 0 n)).
Proof.
  revert a b w; induction n as [|n IH]; intros [|x a] [|y b] [|z w] Ha Hb Hw;
    simpl in *; try discriminate; [reflexivity|].
  rewrite <- seq_shift, map_map. rewrite (IH a b w) by lia. simpl. lra.
Qed.

(** X17.  When the estimate passes the test of positive definiteness,
    entry [(j, k)] of the array that [compute_covariance] returns is
    [sum_i w_i (x_ij - mean_j) (x_ik - mean_k) / (1 - sum_i w_i^2)], with
    [x_.j] and [x_.k] the arrays of the two parameters and the means from
    [compute_mean]. *)
Theorem compute_covariance_entries
    (is_positive_definite : Np.mat -> bool)
    (items : list (string * list R)) (ll lw : Np.vec) (p : Particles.t)
    (j k : nat) :
  Particles.init (PyDict items) ll lw = inr p ->
  (j < length items)%nat -> (k < length items)%nat ->
  is_positive_definite (Particles.weighted_covariance p) = true ->
  let xj := nth j (map snd items) [] in
  let xk := nth k (map snd items) [] in
  let mj := nth j (Particles.compute_mean p) 0 in
  let mk := nth k (Particles.compute_mean p) 0 in
  let w := Particles.weights p in
  Np.get (snd (Particles.compute_covariance is_positive_definite p)) j k
  = Np.sum (map (fun i => nth i w 0 * (nth i xj 0 - mj) * (nth i xk 0 - mk))
              (seq 0 (Particles.num_particles p)))
    / (1 - Np.sum (map (fun wi => wi * wi) w)).
Proof.
  intros H Hj Hk Hpd. cbv zeta.
  pose proof (init_well_formed _ _ _ _ H) as W.
  destruct (init_params_column items ll lw p j H Hj) as [Hcj HP].
  destruct (init_params_column items ll lw p k H Hk) as [Hck _].
  destruct (init_value_length items ll lw p j H Hj) as [Hxj Hw].
  destruct (init_value_length items ll lw p k H Hk) as [Hxk _].
  assert (Hj' : (j < length (Particles.param_names p))%nat) by lia.
  assert (Hk' : (k < length (Particles.param_names p))%nat) by lia.
  unfold Particles.compute_covariance. rewrite Hpd. simpl.
  rewrite (weighted_covariance_entry p j k W Hj' Hk'). cbv zeta.
  rewrite (column_sub_mat_row _ _ _ _ j
             (well_formed_params_shape p W) (compute_mean_length p W) Hj').
  rewrite (column_sub_mat_row _ _ _ _ k
             (well_formed_params_shape p W) (compute_mean_length p W) Hk').
  rewrite Hcj, Hck.
  rewrite (sum_three_index (Particles.num_particles p))
    by (rewrite ?length_map; assumption).
  unfold Rdiv. rewrite Rmult_1_l. f_equal. f_equal.
  apply map_ext_in. intros i Hi. apply in_seq in Hi.
  rewrite (nth_map_in (fun x => x - nth j (Particles.compute_mean p) 0)
             _ i 0 0) by lia.
  rewrite (nth_map_in (fun x => x - nth k (Particles.compute_mean p) 0)
             _ i 0 0) by lia.
  reflexivity.
Qed.

Lemma compute_covariance_entries_witness :
  exists p, Particles.init two_params [0; 0] [3; 5] = inr p /\
    Np.get (snd (Particles.compute_covariance (fun _ => true) p)) 0 0
    = Np.sum (map (fun i => nth i (Particles.weights p) 0
                            * (nth i [1; 2] 0
                               - nth 0 (Particles.compute_mean p) 0)
                            * (nth i [1; 2] 0
                               - nth 0 (Particles.compute_mean p) 0))
                (seq 0 (Particles.num_particles p)))
      / (1 - Np.sum (map (fun wi => wi * wi) (Particles.weights p))).
Proof.
  destruct (two_params_accepted [0; 0] [3; 5] eq_refl eq_refl) as [p Hp].
  exists p. split; [exact Hp|].
  apply (compute_covariance_entries (fun _ => true)
           [("a"%string, [1; 2])] [0; 0] [3; 5] p 0%nat 0%nat Hp).
  - simpl. lia.
  - simpl. lia.
  - reflexivity.
Defined.

(** ** A single particle, a constant parameter *)

(** X18.  A population of one particle gives it the weight 1, whatever
    its raw log-weight; its effective sample size is 1 and the mean of every
    parameter is the particle's value. *)
Theorem single_particle
    (items : list (string * list R)) (ll lw : Np.vec) (p : Particles.t)
    (j : nat) :
  Particles.init (PyDict items) ll lw = inr p ->
  Particles.num_particles p = 1%nat ->
  (j < length items)%nat ->
  Particles.weights p = [1] /\
  Particles.compute_ess p = 1 /\
  [nth j (Particles.compute_mean p) 0] = nth j (map snd items) [].
Proof.
  intros H HN Hj. pose proof (init_well_formed _ _ _ _ H) as W.
  destruct (init_params_column items ll lw p j H Hj) as [Hcol HP].
  destruct (init_value_length items ll lw p j H Hj) as [Hxs Hw].
  assert (Hone : Particles.weights p = [1]).
  { pose proof (wf_weights_sum p W) as Hs. rewrite HN in Hw.
    destruct (Particles.weights p) as [|a [|b l]]; simpl in Hw; try lia.
    simpl in Hs. f_equal. lra. }
  split; [assumption|]. split.
  - unfold Particles.compute_ess. rewrite Hone. simpl. field.
  - rewrite compute_mean_nth by (assumption || lia).
    rewrite Hcol, Hone. rewrite HN in Hxs.
    destruct (nth j (map snd items) []) as [|x [|y l]]; simpl in Hxs; try lia.
    simpl. f_equal. lra.
Qed.

Lemma single_particle_witness :
  exists p, Particles.init (PyDict [("a"%string, [7])]) [0] [-3] = inr p /\
            Particles.weights p = [1].
Proof.
  destruct (init_accepts [("a"%string, [7])] [0] [-3]) as [p Hp];
    simpl; try reflexivity; try discriminate.
  { intros x [<-|[]]. reflexivity. }
  exists p. split; [exact Hp|].
  assert (HN : Particles.num_particles p = 1%nat).
  { destruct (init_inv _ _ _ _ Hp) as (items & m & Hi & _ & _ & _ & _ & _ & Hq).
    injection Hi as <-. rewrite Hq. reflexivity. }
  assert (Hj : (0 < length [("a"%string, [7])])%nat) by (simpl; lia).
  exact (proj1 (single_particle _ _ _ p 0%nat Hp HN Hj)).
Defined.




(** ** The population drawn from the prior *)

Lemma prior_population (self : Initializer.t) (n : Z)
    (log log' : list Initializer.call) (p : Particles.t) :
  Initializer.init_particles_from_prior self n log = (log', inr p) ->
  (0 < n)%Z /\
  Particles.num_particles p = Z.to_nat n /\
  Particles.init
    (Initializer.sample_from_prior (Initializer.mcmc_kernel self) log n)
    (Initializer.get_log_likelihoods (Initializer.mcmc_kernel self)
       (log ++ [Initializer.SampleFromPrior n])
       (Initializer.sample_from_prior (Initializer.mcmc_kernel self) log n))
    (repeat (ln (1 / IZR n)) (Z.to_nat n)) = inr p.
Proof.
  unfold Initializer.init_particles_from_prior, Initializer.mbind,
    Initializer.do_sample_from_prior, Initializer.do_get_log_likelihoods,
    Initializer.lift, Initializer.prior_log_weights, Initializer.py_one_over,
    Initializer.py_list_repeat.
  simpl.
  destruct (Z.eqb_spec n 0) as [Hz|Hz]; simpl; [discriminate|].
  intros H. injection H as _ Hp.
  pose proof (init_well_formed _ _ _ _ Hp) as W.
  pose proof (wf_num_pos p W) as Hpos.
  pose proof (init_inv _ _ _ _ Hp)
    as (items & m & _ & _ & _ & _ & Hlw & _ & Hq).
  assert (HN : Particles.num_particles p = Z.to_nat n).
  { rewrite Hq. simpl. rewrite <- Hlw. apply repeat_length. }
  split; [lia|]. split; assumption.
Qed.

(** X20.  In the population that [init_particles_from_prior] returns
    the effective sample size is [num_particles], and the mean of each
    sampled parameter is the arithmetic mean of its sampled values. *)
Theorem init_particles_from_prior_estimates
    (self : Initializer.t) (n : Z) (log log' : list Initializer.call)
    (p : Particles.t) (items : list (string * list R)) (j : nat) :
  Initializer.init_particles_from_prior self n log = (log', inr p) ->
  Initializer.sample_from_prior (Initializer.mcmc_kernel self) log n
    = PyDict items ->
  (j < length items)%nat ->
  Particles.compute_ess p = IZR n /\
  nth j (Particles.compute_mean p) 0
    = Np.sum (nth j (map snd items) []) / IZR n.
Proof.
  intros H Hs Hj. apply prior_population in H as (Hn & HN & Hp).
  rewrite Hs in Hp.
  pose proof (init_well_formed _ _ _ _ Hp) as W.
  pose proof (wf_num_pos p W) as Hpos.
  assert (HR : INR (Particles.num_particles p) = IZR n).
  { rewrite HN, INR_IZR_INZ, Z2Nat.id by lia. reflexivity. }
  destruct (init_params_column items _ _ p j Hp Hj) as [Hcol HP].
  destruct (init_value_length items _ _ p j Hp Hj) as [Hxs Hw].
  assert (Hu : Particles.weights p
               = repeat (1 / INR (Particles.num_particles p))
                   (Particles.num_particles p)).
  { destruct (init_inv _ _ _ _ Hp) as (i' & m & _ & _ & _ & _ & _ & Hm & Hq).
    rewrite Hq at 1. simpl Particles.weights. rewrite <- HN in Hm |- *.
    apply (uniform_closed_form _ m _ Hpos Hm). }
  split.
  - unfold Particles.compute_ess. rewrite Hu.
    fold (sum_sq (repeat (1 / INR (Particles.num_particles p))
                    (Particles.num_particles p))).
    rewrite sum_sq_repeat, HR. field. apply Rgt_not_eq, IZR_lt. assumption.
  - rewrite compute_mean_nth by (assumption || lia).
    rewrite Hcol, Hu, <- Hxs, weighted_sum_repeat, Hxs, HR.
    unfold Rdiv. lra.
Qed.

Lemma init_particles_from_prior_estimates_witness :
  exists log' p,
    Initializer.init_particles_from_prior
      (Initializer.mk (constant_kernel [0; 0] [0; 0])) 2 [] = (log', inr p) /\
    Particles.compute_ess p = IZR 2.
Proof.
  destruct (two_params_accepted [0; 0] (repeat (ln (1 / IZR 2)) 2)
              eq_refl eq_refl) as [p Hp].
  assert (Hrun : Initializer.init_particles_from_prior
                   (Initializer.mk (constant_kernel [0; 0] [0; 0])) 2 []
                 = ([Initializer.SampleFromPrior 2;
                     Initializer.GetLogLikelihoods two_params], inr p)).
  { unfold Initializer.init_particles_from_prior, Initializer.mbind,
      Initializer.do_sample_from_prior, Initializer.do_get_log_likelihoods,
      Initializer.lift, Initializer.prior_log_weights,
      Initializer.py_one_over, Initializer.py_list_repeat.
    simpl. simpl in Hp. rewrite Hp. reflexivity. }
  exists [Initializer.SampleFromPrior 2;
          Initializer.GetLogLikelihoods two_params], p.
  split; [exact Hrun|].
  assert (Hj : (0 < length [("a"%string, [1; 2])])%nat) by (simpl; lia).
  exact (proj1 (init_particles_from_prior_estimates
                  (Initializer.mk (constant_kernel [0; 0] [0; 0])) 2 [] _ p
                  [("a"%string, [1; 2])] 0%nat Hrun eq_refl Hj)).
Defined.
